(** * sleepy: the data access layer ([data.py]), embedded and verified

    The development follows [class Data] of [data.py]: the status store, the
    device registry, the metrics engine and the TTL file cache.  Tables of the
    record store are lists of rows in store order; a call that raises hands
    back the exception together with the store as it stood at the [raise].
    Storage failures ([SQLAlchemyError]) are outside the model: the store is
    assumed available. *)

From Stdlib Require Import ZArith List String Ascii Bool Strings.Byte Floats DecimalString Lia.
From Stdlib Require Import Permutation Sorted.
Import ListNotations.

Set Warnings "-register-all".

Local Open Scope string_scope.
Local Open Scope list_scope.

(* ================================================================== *)
(** * Python values *)
(* ================================================================== *)

(** Truthiness of a [str] and of a [str | None]. *)
Definition truthy (s : string) : bool :=
  match s with
  | EmptyString => false
  | String _ _ => true
  end.

Definition truthy_opt (o : option string) : bool :=
  match o with
  | None => false
  | Some s => truthy s
  end.

(** [a or b] on [str | None] operands: [a] when it is truthy, else [b]. *)
Definition py_or (a b : option string) : option string :=
  if truthy_opt a then a else b.

(** [lst[i]] for a Python [int] index: a negative index counts from the end;
    [None] stands for [IndexError]. *)
Definition list_index {A : Type} (l : list A) (i : Z) : option A :=
  let n := Z.of_nat (List.length l) in
  let j := if (i <? 0)%Z then (i + n)%Z else i in
  if ((j <? 0) || (n <=? j))%Z then None else nth_error l (Z.to_nat j).

(** A [dict] with [str] keys: an association list in insertion order, as a
    Python [dict] iterates. *)
Module Dict.

Definition t (V : Type) : Type := list (string * V).

Definition empty {V : Type} : t V := [].

Fixpoint get {V : Type} (k : string) (d : t V) : option V :=
  match d with
  | [] => None
  | (k', v) :: r => if String.eqb k k' then Some v else get k r
  end.

(** [d[k] = v]: an existing key keeps its place, a new key goes last. *)
Fixpoint set {V : Type} (k : string) (v : V) (d : t V) : t V :=
  match d with
  | [] => [(k, v)]
  | (k', v') :: r =>
      if String.eqb k k' then (k, v) :: r else (k', v') :: set k v r
  end.

(** [d.update(e)]. *)
Definition update {V : Type} (d e : t V) : t V :=
  fold_left (fun acc kv => set (fst kv) (snd kv) acc) e d.

Definition keys {V : Type} (d : t V) : list string := map fst d.

(** [dict(sorted(d.items()))]: the keys of a dict are distinct, so the item
    tuples are ordered by key alone. *)
Fixpoint insert_sorted {V : Type} (kv : string * V) (d : t V) : t V :=
  match d with
  | [] => [kv]
  | kv' :: r =>
      if String.leb (fst kv) (fst kv') then kv :: d
      else kv' :: insert_sorted kv r
  end.

Definition sorted_items {V : Type} (d : t V) : t V :=
  fold_right insert_sorted [] d.

End Dict.

(** JSON-like values: what a device's [fields] column and the primitive
    form of a row hold. *)
Inductive value : Type :=
| VNone
| VBool (b : bool)
| VInt (z : Z)
| VFloat (f : float)
| VStr (s : string)
| VList (l : list value)
| VDict (d : list (string * value)).

(** [v == True] / [v == False] for the value a [Boolean] column yields
    ([True], [False] or [None]). *)
Definition eq_bool (o : option value) (b : bool) : bool :=
  match o with
  | Some (VBool x) => Bool.eqb x b
  | _ => false
  end.

(** Modelled from the spec: [utils.deep_merge_dict] is not among the source
    files.  "Recursive mapping merge: for each key, if both sides are
    mappings, merge recursively, else new value replaces old."  Keys of the
    old mapping keep their place; new keys are appended. *)
Fixpoint deep_merge_value (old new : value) {struct new} : value :=
  match old, new with
  | VDict a, VDict b =>
      VDict
        ((fix merge_items (acc : Dict.t value) (items : list (string * value))
            {struct items} : Dict.t value :=
            match items with
            | [] => acc
            | (k, v) :: rest =>
                let v' :=
                  match Dict.get k a with
                  | Some o => deep_merge_value o v
                  | None => v
                  end in
                merge_items (Dict.set k v' acc) rest
            end) a b)
  | _, _ => new
  end.

Definition deep_merge_dict (a b : Dict.t value) : Dict.t value :=
  match deep_merge_value (VDict a) (VDict b) with
  | VDict d => d
  | _ => b
  end.

(** The value the merge stores under key [k] for the new value [v], and the
    item loop of the merge on its own, for reasoning. *)
Definition merged_value (a : Dict.t value) (k : string) (v : value) : value :=
  match Dict.get k a with
  | Some o => deep_merge_value o v
  | None => v
  end.

Fixpoint merge_items (a acc : Dict.t value) (items : list (string * value))
  : Dict.t value :=
  match items with
  | [] => acc
  | (k, v) :: rest => merge_items a (Dict.set k (merged_value a k v) acc) rest
  end.

(* ================================================================== *)
(** * Exceptions and outcomes *)
(* ================================================================== *)

Inductive exception : Type :=
| APIUnsuccessful (code : Z) (message : string)
| AttributeError
| FileNotFoundError
| IsADirectoryError
| PermissionError.

(** The result of a call on a state [S]: it returns a value, or it raises;
    both carry the state the call leaves behind. *)
Inductive outcome (A S : Type) : Type :=
| Return (a : A) (s : S)
| Raise (e : exception) (s : S).

Arguments Return {A S} a s.
Arguments Raise {A S} e s.

(** An [APIUnsuccessful] with code 400 is how the layer reports a
    validation error. *)
Definition is_validation_error (e : exception) : bool :=
  match e with
  | APIUnsuccessful code _ => (code =? 400)%Z
  | _ => false
  end.

(* ================================================================== *)
(** * Configuration and tables *)
(* ================================================================== *)

(** [_StatusItemModel]. *)
Record StatusItemModel : Type := {
  item_id : Z;
  item_name : string;
  item_desc : string;
  item_color : string
}.

(** The parts of [ConfigModel] that [Data] reads:
    [status.status_list], [status.using_first], [status.sorted],
    [status.not_using], [metrics.enabled], [metrics.allow_list],
    [main.debug], [main.cache_age]. *)
Record ConfigModel : Type := {
  status_list : list StatusItemModel;
  using_first : bool;
  sorted : bool;
  not_using : option string;
  metrics_enabled : bool;
  allow_list : list string;
  debug : bool;
  cache_age : float
}.

(** [_MainData], the singleton row. *)
Record MainData : Type := {
  main_status : Z;
  main_private_mode : bool;
  main_last_updated : float
}.

(** [_DeviceStatusData].  [show_name] is [None] only on an object that has
    not been filled in yet.  The per-row [last_updated] column is maintained
    by the ORM ([default]/[onupdate]), not by [Data], and is left out. *)
Record DeviceStatusData : Type := {
  dev_id : string;
  dev_show_name : option string;
  dev_using : option bool;
  dev_status : option string;
  dev_fields : Dict.t value
}.

(** [_MetricsMetaData], the period markers. *)
Record MetricsMetaData : Type := {
  meta_today : string;
  meta_week : string;
  meta_month : string;
  meta_year : string
}.

(** [_MetricsData], one row per path. *)
Record MetricsData : Type := {
  m_path : string;
  m_daily : Z;
  m_weekly : Z;
  m_monthly : Z;
  m_yearly : Z;
  m_total : Z
}.

(** The record store.  [__init__] creates the [main] row when it is absent,
    so it is always there; the [metrics_meta] row is created only when
    metrics are enabled. *)
Record Database : Type := {
  main : MainData;
  device_status : list DeviceStatusData;
  metrics_meta : option MetricsMetaData;
  metrics : list MetricsData
}.

(** The store [__init__] leaves when it starts from empty tables at clock
    reading [t]. *)
Definition init (c : ConfigModel) (t : float) : Database :=
  {| main :=
       {| main_status := 0; main_private_mode := false; main_last_updated := t |};
     device_status := [];
     metrics_meta :=
       if metrics_enabled c
       then Some {| meta_today := ""; meta_week := ""; meta_month := ""; meta_year := "" |}
       else None;
     metrics := [] |}.

(* ================================================================== *)
(** * Status store *)
(* ================================================================== *)

Definition status_id (db : Database) : Z := main_status (main db).

Definition private_mode (db : Database) : bool := main_private_mode (main db).

Definition last_updated (db : Database) : float := main_last_updated (main db).

(** The [last_updated] setter. *)
Definition set_last_updated (value : float) (db : Database) : Database :=
  {| main :=
       {| main_status := main_status (main db);
          main_private_mode := main_private_mode (main db);
          main_last_updated := value |};
     device_status := device_status db;
     metrics_meta := metrics_meta db;
     metrics := metrics db |}.

(** The fallback description, UTF-8 encoded. *)
Definition unknown_desc : string := "未知的标识符，可能是配置问题。".

Definition get_status (c : ConfigModel) (db : Database) (status_id' : Z)
  : bool * StatusItemModel :=
  match list_index (status_list c) status_id' with
  | Some item => (true, item)
  | None =>
      (false,
       {| item_id := status_id db;
          item_name := "Unknown";
          item_desc := unknown_desc;
          item_color := "error" |})
  end.

(* ================================================================== *)
(** * Device registry *)
(* ================================================================== *)

(** [to_primitive] on a device row: the plain attribute mapping of its
    columns. *)
Definition opt_value {A : Type} (f : A -> value) (o : option A) : value :=
  match o with
  | Some a => f a
  | None => VNone
  end.

Definition to_primitive (d : DeviceStatusData) : Dict.t value :=
  [ ("id", VStr (dev_id d));
    ("show_name", opt_value VStr (dev_show_name d));
    ("using", opt_value VBool (dev_using d));
    ("status", opt_value VStr (dev_status d));
    ("fields", VDict (dev_fields d)) ].

(** [{d.id: d for d in devices}], or [{}] in private mode. *)
Definition _raw_device_list (db : Database) : Dict.t DeviceStatusData :=
  if private_mode db then Dict.empty
  else fold_left (fun acc d => Dict.set (dev_id d) d acc) (device_status db) Dict.empty.

Definition _raw_device_list_dict (db : Database) : Dict.t (Dict.t value) :=
  map (fun kv => (fst kv, to_primitive (snd kv))) (_raw_device_list db).

(** [v['status'] = not_using] when the override is configured. *)
Definition lock_status (c : ConfigModel) (v : Dict.t value) : Dict.t value :=
  match not_using c with
  | Some s => if truthy s then Dict.set "status" (VStr s) v else v
  | None => v
  end.

(** The three groups the [using_first] loop fills: using, not using,
    unknown. *)
Definition partition_step (c : ConfigModel)
    (groups : Dict.t (Dict.t value) * Dict.t (Dict.t value) * Dict.t (Dict.t value))
    (kv : string * Dict.t value)
  : Dict.t (Dict.t value) * Dict.t (Dict.t value) * Dict.t (Dict.t value) :=
  let '(devicelst, device_not_using, device_unknown) := groups in
  let '(k, v) := kv in
  if eq_bool (Dict.get "using" v) true then
    (Dict.set k v devicelst, device_not_using, device_unknown)
  else if eq_bool (Dict.get "using" v) false then
    (devicelst, Dict.set k (lock_status c v) device_not_using, device_unknown)
  else
    (devicelst, device_not_using, Dict.set k v device_unknown).

Definition device_list (c : ConfigModel) (db : Database) : Dict.t (Dict.t value) :=
  if private_mode db then
    Dict.empty
  else if using_first c then
    let '(devicelst, device_not_using, device_unknown) :=
      fold_left (partition_step c) (_raw_device_list_dict db)
                (Dict.empty, Dict.empty, Dict.empty) in
    let '(devicelst, device_not_using, device_unknown) :=
      if sorted c
      then (Dict.sorted_items devicelst,
            Dict.sorted_items device_not_using,
            Dict.sorted_items device_unknown)
      else (devicelst, device_not_using, device_unknown) in
    Dict.update (Dict.update devicelst device_not_using) device_unknown
  else
    let devicelst := _raw_device_list_dict db in
    let devicelst :=
      if truthy_opt (not_using c) then
        map (fun kv =>
               if eq_bool (Dict.get "using" (snd kv)) false
               then (fst kv, lock_status c (snd kv))
               else kv) devicelst
      else devicelst in
    if sorted c then Dict.sorted_items devicelst else devicelst.

(** [query.filter_by(id=id).first()]. *)
Definition device_get (id : string) (db : Database) : option DeviceStatusData :=
  find (fun d => String.eqb (dev_id d) id) (device_status db).

(** A fresh [_DeviceStatusData()] given its id.  Its [fields] attribute is
    not set yet when [device_set] merges into it; the column default
    ([default=dict]) stands for it, so the merge starts from the empty
    mapping. *)
Definition new_device (id : string) : DeviceStatusData :=
  {| dev_id := id;
     dev_show_name := None;
     dev_using := None;
     dev_status := None;
     dev_fields := Dict.empty |}.

(** The four assignments of [device_set] on the row object. *)
Definition assign (device : DeviceStatusData)
    (show_name : option string) (using_ : option bool)
    (status : option string) (fields : Dict.t value) : DeviceStatusData :=
  {| dev_id := dev_id device;
     dev_show_name := py_or show_name (dev_show_name device);
     dev_using :=
       match using_ with
       | Some b => Some b
       | None => dev_using device
       end;
     dev_status := py_or status (dev_status device);
     dev_fields := deep_merge_dict (dev_fields device) fields |}.

(** The row that [query.first()] returned is the one the commit writes. *)
Fixpoint replace_first (id : string) (d' : DeviceStatusData)
    (rows : list DeviceStatusData) : list DeviceStatusData :=
  match rows with
  | [] => []
  | d :: r =>
      if String.eqb (dev_id d) id then d' :: r else d :: replace_first id d' r
  end.

Definition set_devices (rows : list DeviceStatusData) (db : Database) : Database :=
  {| main := main db;
     device_status := rows;
     metrics_meta := metrics_meta db;
     metrics := metrics db |}.

(** [device_set]; [now] is the reading of [time()] taken after the commit. *)
Definition device_set (id : option string) (show_name : option string)
    (using_ : option bool) (status : option string) (fields : Dict.t value)
    (now : float) (db : Database) : outcome unit Database :=
  match id with
  | None | Some EmptyString =>
      Raise (APIUnsuccessful 400 "device id cannot be empty!") db
  | Some i =>
      match device_get i db with
      | None =>
          if truthy_opt show_name then
            let device := assign (new_device i) show_name using_ status fields in
            Return tt (set_last_updated now
                         (set_devices (device_status db ++ [device]) db))
          else
            Raise (APIUnsuccessful 400 "device show_name cannot be empty!") db
      | Some device =>
          let device' := assign device show_name using_ status fields in
          Return tt (set_last_updated now
                       (set_devices (replace_first i device' (device_status db)) db))
      end
  end.

(** The [fields] a store holds for a device id; the empty mapping when the
    device does not exist yet. *)
Definition fields_of (id : string) (db : Database) : Dict.t value :=
  match device_get id db with
  | Some d => dev_fields d
  | None => Dict.empty
  end.

(** One [device_set] call for a fixed device id. *)
Record upsert : Type := {
  up_show_name : option string;
  up_using : option bool;
  up_status : option string;
  up_fields : Dict.t value;
  up_now : float
}.

(** A sequence of [device_set] calls on one id, each on the store the
    previous one left; [None] when one of them raises. *)
Fixpoint device_set_all (id : option string) (calls : list upsert)
    (db : Database) : option Database :=
  match calls with
  | [] => Some db
  | u :: rest =>
      match device_set id (up_show_name u) (up_using u) (up_status u)
                       (up_fields u) (up_now u) db with
      | Return _ db' => device_set_all id rest db'
      | Raise _ _ => None
      end
  end.

(* ================================================================== *)
(** * Metrics engine *)
(* ================================================================== *)

(** [path in allow_list]. *)
Definition allowed (c : ConfigModel) (path : string) : bool :=
  existsb (String.eqb path) (allow_list c).

(** [_MetricsData.query.filter_by(path=path).first()]. *)
Definition metric_get (path : string) (db : Database) : option MetricsData :=
  find (fun m => String.eqb (m_path m) path) (metrics db).

(** A fresh [_MetricsData()] with the five counters set to zero. *)
Definition new_metric (path : string) : MetricsData :=
  {| m_path := path; m_daily := 0; m_weekly := 0; m_monthly := 0;
     m_yearly := 0; m_total := 0 |}.

(** The [override] branch and the [+=] branch. *)
Definition bump (override : bool) (count : Z) (m : MetricsData) : MetricsData :=
  if override then
    {| m_path := m_path m; m_daily := count; m_weekly := count;
       m_monthly := count; m_yearly := count; m_total := count |}
  else
    {| m_path := m_path m;
       m_daily := m_daily m + count;
       m_weekly := m_weekly m + count;
       m_monthly := m_monthly m + count;
       m_yearly := m_yearly m + count;
       m_total := m_total m + count |}.

Fixpoint replace_metric (path : string) (m' : MetricsData)
    (rows : list MetricsData) : list MetricsData :=
  match rows with
  | [] => []
  | m :: r =>
      if String.eqb (m_path m) path then m' :: r else m :: replace_metric path m' r
  end.

Definition set_metrics (rows : list MetricsData) (db : Database) : Database :=
  {| main := main db;
     device_status := device_status db;
     metrics_meta := metrics_meta db;
     metrics := rows |}.

Definition record_metrics (c : ConfigModel) (path : string) (count : Z)
    (override : bool) (db : Database) : Database :=
  if negb (allowed c path) then db
  else
    match metric_get path db with
    | None => set_metrics (metrics db ++ [bump override count (new_metric path)]) db
    | Some metric =>
        set_metrics (replace_metric path (bump override count metric) (metrics db)) db
    end.

(** [metric_data_index]: the counters of ["/"]. *)
Definition metric_data_index (db : Database) : Z * Z * Z * Z * Z :=
  match metric_get "/" db with
  | Some m => (m_daily m, m_weekly m, m_monthly m, m_yearly m, m_total m)
  | None => (0, 0, 0, 0, 0)%Z
  end.

(** What [_metrics_refresh] reads of [datetime.now(tz)]: [year], [month],
    [day] and [isocalendar().week]. *)
Record datetime : Type := {
  dt_year : N;
  dt_month : N;
  dt_day : N;
  dt_week : N
}.

(** [f'{n}'] for a non-negative [int]. *)
Definition fmt (n : N) : string := NilZero.string_of_uint (N.to_uint n).

Definition year_key (now : datetime) : string := fmt (dt_year now).

Definition month_key (now : datetime) : string :=
  fmt (dt_year now) ++ "-" ++ fmt (dt_month now).

Definition today_key (now : datetime) : string :=
  fmt (dt_year now) ++ "-" ++ fmt (dt_month now) ++ "-" ++ fmt (dt_day now).

Definition week_key (now : datetime) : string :=
  fmt (dt_year now) ++ "-" ++ fmt (dt_week now).

Definition zero_daily (m : MetricsData) : MetricsData :=
  {| m_path := m_path m; m_daily := 0; m_weekly := m_weekly m;
     m_monthly := m_monthly m; m_yearly := m_yearly m; m_total := m_total m |}.

Definition zero_weekly (m : MetricsData) : MetricsData :=
  {| m_path := m_path m; m_daily := m_daily m; m_weekly := 0;
     m_monthly := m_monthly m; m_yearly := m_yearly m; m_total := m_total m |}.

Definition zero_monthly (m : MetricsData) : MetricsData :=
  {| m_path := m_path m; m_daily := m_daily m; m_weekly := m_weekly m;
     m_monthly := 0; m_yearly := m_yearly m; m_total := m_total m |}.

Definition zero_yearly (m : MetricsData) : MetricsData :=
  {| m_path := m_path m; m_daily := m_daily m; m_weekly := m_weekly m;
     m_monthly := m_monthly m; m_yearly := 0; m_total := m_total m |}.

Definition set_today (v : string) (meta : MetricsMetaData) : MetricsMetaData :=
  {| meta_today := v; meta_week := meta_week meta;
     meta_month := meta_month meta; meta_year := meta_year meta |}.

Definition set_week (v : string) (meta : MetricsMetaData) : MetricsMetaData :=
  {| meta_today := meta_today meta; meta_week := v;
     meta_month := meta_month meta; meta_year := meta_year meta |}.

Definition set_month (v : string) (meta : MetricsMetaData) : MetricsMetaData :=
  {| meta_today := meta_today meta; meta_week := meta_week meta;
     meta_month := v; meta_year := meta_year meta |}.

Definition set_year (v : string) (meta : MetricsMetaData) : MetricsMetaData :=
  {| meta_today := meta_today meta; meta_week := meta_week meta;
     meta_month := meta_month meta; meta_year := v |}.

(** One of the four [if key != meta.marker:] blocks: store the key and run
    the [for i in raw_metrics] loop. *)
Definition roll (key : string) (marker : MetricsMetaData -> string)
    (store : string -> MetricsMetaData -> MetricsMetaData)
    (zero : MetricsData -> MetricsData)
    (st : MetricsMetaData * list MetricsData) : MetricsMetaData * list MetricsData :=
  if negb (String.eqb key (marker (fst st)))
  then (store key (fst st), map zero (snd st))
  else st.

(** [_metrics_refresh]; with no [metrics_meta] row the first attribute
    access on [None] raises. *)
Definition _metrics_refresh (now : datetime) (db : Database) : outcome unit Database :=
  match metrics_meta db with
  | None => Raise AttributeError db
  | Some meta_metrics =>
      let st := (meta_metrics, metrics db) in
      let st := roll (today_key now) meta_today set_today zero_daily st in
      let st := roll (week_key now) meta_week set_week zero_weekly st in
      let st := roll (month_key now) meta_month set_month zero_monthly st in
      let st := roll (year_key now) meta_year set_year zero_yearly st in
      Return tt {| main := main db;
                   device_status := device_status db;
                   metrics_meta := Some (fst st);
                   metrics := snd st |}
  end.

(** The operations of the metrics engine, and a run of them; a call that
    raises leaves the store to the next call as it stood. *)
Inductive metrics_op : Type :=
| Record_metrics (path : string) (count : Z) (override : bool)
| Metrics_refresh (now : datetime).

Definition run_op (c : ConfigModel) (db : Database) (op : metrics_op) : Database :=
  match op with
  | Record_metrics path count override => record_metrics c path count override db
  | Metrics_refresh now =>
      match _metrics_refresh now db with
      | Return _ db' => db'
      | Raise _ db' => db'
      end
  end.

Definition run_ops (c : ConfigModel) (ops : list metrics_op) (db : Database) : Database :=
  fold_left (run_op c) ops db.

(** Every counter of a row is non-negative. *)
Definition nonneg (m : MetricsData) : Prop :=
  (0 <= m_daily m /\ 0 <= m_weekly m /\ 0 <= m_monthly m /\
   0 <= m_yearly m /\ 0 <= m_total m)%Z.

(** The counters of a row after a refresh with the given keys against the
    given markers: a counter whose key differs from its marker is zero, the
    others and [total] are as they were. *)
Definition rolled (now : datetime) (meta : MetricsMetaData) (m : MetricsData)
  : MetricsData :=
  {| m_path := m_path m;
     m_daily := if String.eqb (today_key now) (meta_today meta) then m_daily m else 0;
     m_weekly := if String.eqb (week_key now) (meta_week meta) then m_weekly m else 0;
     m_monthly := if String.eqb (month_key now) (meta_month meta) then m_monthly m else 0;
     m_yearly := if String.eqb (year_key now) (meta_year meta) then m_yearly m else 0;
     m_total := m_total m |}.

(** The same value in all five counters. *)
Definition all_counters (m : MetricsData) (v : Z) : Prop :=
  m_daily m = v /\ m_weekly m = v /\ m_monthly m = v
  /\ m_yearly m = v /\ m_total m = v.

(* ================================================================== *)
(** * TTL file cache *)
(* ================================================================== *)

Definition bytes : Type := list byte.

(** What [open(filepath, 'rb')] followed by [f.read()] yields. *)
Inductive read_result : Type :=
| Content (b : bytes)
| OpenError (e : exception).

(** The disk: a path and what reading it yields. *)
Definition filesystem : Type := string -> read_result.

(** The class attribute [_cache] (a [BytesIO] is held by its content), and
    the log of the paths opened so far. *)
Record CacheState : Type := {
  _cache : Dict.t (float * bytes);
  opened : list string
}.

(** [a or b] on two exception classes: a class object is truthy, so the
    expression is [a]. *)
Definition class_or (a b : exception) : exception := a.

(** [isinstance(e, cls)] on the built-in classes used here: none is a
    subclass of another. *)
Definition isinstance (e cls : exception) : bool :=
  match e, cls with
  | FileNotFoundError, FileNotFoundError => true
  | IsADirectoryError, IsADirectoryError => true
  | PermissionError, PermissionError => true
  | AttributeError, AttributeError => true
  | _, _ => false
  end.

(** The class the [except FileNotFoundError or IsADirectoryError:] clause of
    [get_cached_file] names. *)
Definition handled : exception := class_or FileNotFoundError IsADirectoryError.

Section FileCache.

(** [werkzeug.security.safe_join] and [utils.get_path], taken as given. *)
Variable safe_join : string -> string -> option string.
Variable get_path : string -> string.

(** [f'f-{dirname}/{filename}']. *)
Definition cache_key (dirname filename : string) : string :=
  "f-" ++ dirname ++ "/" ++ filename.

(** The [with open(filepath, 'rb')] block under the [try]: the path is
    logged, a handled error becomes [None], any other error propagates. *)
Definition open_read (fs : filesystem) (filepath : string) (s : CacheState)
    (k : bytes -> CacheState -> outcome (option bytes) CacheState)
  : outcome (option bytes) CacheState :=
  let s' := {| _cache := _cache s; opened := opened s ++ [filepath] |} in
  match fs filepath with
  | Content b => k b s'
  | OpenError e => if isinstance e handled then Return None s' else Raise e s'
  end.

(** [get_cached_file]; [now] is the reading of [time()]. *)
Definition get_cached_file (c : ConfigModel) (fs : filesystem) (now : float)
    (dirname filename : string) (s : CacheState)
  : outcome (option bytes) CacheState :=
  match safe_join (get_path dirname) filename with
  | None | Some EmptyString => Return None s
  | Some filepath =>
      if debug c then
        open_read fs filepath s (fun b s' => Return (Some b) s')
      else
        let key := cache_key dirname filename in
        match Dict.get key (_cache s) with
        | Some (t0, b) =>
            if PrimFloat.ltb (PrimFloat.sub now t0) (cache_age c) then
              Return (Some b) s
            else
              open_read fs filepath s (fun ret s' =>
                Return (Some ret)
                       {| _cache := Dict.set key (now, ret) (_cache s');
                          opened := opened s' |})
        | None =>
            open_read fs filepath s (fun ret s' =>
              Return (Some ret)
                     {| _cache := Dict.set key (now, ret) (_cache s');
                        opened := opened s' |})
        end
  end.

End FileCache.

(** The test [cached and now - cached[0] < cache_age] on the entry of a
    key. *)
Definition is_fresh (c : ConfigModel) (now : float) (key : string)
    (s : CacheState) : bool :=
  match Dict.get key (_cache s) with
  | Some (t0, _) => PrimFloat.ltb (PrimFloat.sub now t0) (cache_age c)
  | None => false
  end.

(** Strict UTF-8 decoding, as [str(b, encoding='utf-8')] does it: [None]
    stands for [UnicodeDecodeError].  The result is the list of code
    points. *)
Definition cont (b : N) : bool := ((128 <=? b) && (b <=? 191))%N.

Definition within (lo hi b : N) : bool := ((lo <=? b) && (b <=? hi))%N.

Definition low6 (b : N) : N := (b mod 64)%N.

Fixpoint utf8_decode (bs : list N) : option (list N) :=
  match bs with
  | [] => Some []
  | b0 :: r0 =>
      if (b0 <? 128)%N then
        option_map (cons b0) (utf8_decode r0)
      else if within 194 223 b0 then
        match r0 with
        | b1 :: r1 =>
            if cont b1
            then option_map (cons ((b0 mod 32) * 64 + low6 b1)%N) (utf8_decode r1)
            else None
        | _ => None
        end
      else if within 224 239 b0 then
        match r0 with
        | b1 :: b2 :: r2 =>
            if (if (b0 =? 224)%N then within 160 191 b1
                else if (b0 =? 237)%N then within 128 159 b1
                else cont b1) && cont b2
            then option_map
                   (cons ((b0 mod 16) * 4096 + low6 b1 * 64 + low6 b2)%N)
                   (utf8_decode r2)
            else None
        | _ => None
        end
      else if within 240 244 b0 then
        match r0 with
        | b1 :: b2 :: b3 :: r3 =>
            if (if (b0 =? 240)%N then within 144 191 b1
                else if (b0 =? 244)%N then within 128 143 b1
                else cont b1) && cont b2 && cont b3
            then option_map
                   (cons ((b0 mod 8) * 262144 + low6 b1 * 4096
                          + low6 b2 * 64 + low6 b3)%N)
                   (utf8_decode r3)
            else None
        | _ => None
        end
      else None
  end.

Definition decode (b : bytes) : option (list N) :=
  utf8_decode (map Byte.to_N b).

(** [get_cached_text]: a [BytesIO] is always truthy, so [if raw:] tests for
    [None] only. *)
Definition get_cached_text (safe_join : string -> string -> option string)
    (get_path : string -> string) (c : ConfigModel) (fs : filesystem)
    (now : float) (dirname filename : string) (s : CacheState)
  : outcome (option (list N)) CacheState :=
  match get_cached_file safe_join get_path c fs now dirname filename s with
  | Return (Some raw) s' => Return (decode raw) s'
  | Return None s' => Return None s'
  | Raise e s' => Raise e s'
  end.

(* ================================================================== *)
(** * Further operations of [Data] *)
(* ================================================================== *)

(** ** Status store: setters and the current status *)

(** The [status_id] and [private_mode] setters write one attribute of the
    [main] row and commit.  The row's [last_updated] column is declared
    with [onupdate=time]; what it holds after the commit is the ORM's
    doing and is taken as [stamp]. *)
Definition set_status_id (value : Z) (stamp : float) (db : Database) : Database :=
  {| main :=
       {| main_status := value;
          main_private_mode := main_private_mode (main db);
          main_last_updated := stamp |};
     device_status := device_status db;
     metrics_meta := metrics_meta db;
     metrics := metrics db |}.

Definition set_private_mode (value : bool) (stamp : float) (db : Database)
  : Database :=
  {| main :=
       {| main_status := main_status (main db);
          main_private_mode := value;
          main_last_updated := stamp |};
     device_status := device_status db;
     metrics_meta := metrics_meta db;
     metrics := metrics db |}.

(** The [status] property. *)
Definition status (c : ConfigModel) (db : Database) : bool * StatusItemModel :=
  get_status c db (status_id db).

(** [to_primitive] on a status item, and the [status_dict] property. *)
Definition item_to_primitive (item : StatusItemModel) : Dict.t value :=
  [ ("id", VInt (item_id item));
    ("name", VStr (item_name item));
    ("desc", VStr (item_desc item));
    ("color", VStr (item_color item)) ].

Definition status_dict (c : ConfigModel) (db : Database) : bool * Dict.t value :=
  (fst (status c db), item_to_primitive (snd (status c db))).

(** ** Device registry: removal, and what the view shows *)

(** [db.session.delete(device)] on the row [query.first()] returned. *)
Fixpoint remove_first (id : string) (rows : list DeviceStatusData)
  : list DeviceStatusData :=
  match rows with
  | [] => []
  | d :: r => if String.eqb (dev_id d) id then r else d :: remove_first id r
  end.

Definition device_remove (id : string) (now : float) (db : Database) : Database :=
  match device_get id db with
  | Some _ =>
      set_last_updated now
        (set_devices (remove_first id (device_status db)) db)
  | None => db
  end.

Definition device_clear (now : float) (db : Database) : Database :=
  set_last_updated now (set_devices [] db).

(** The primary key of [device_status]: no two rows share an id. *)
Definition unique_ids (db : Database) : Prop :=
  NoDup (map dev_id (device_status db)).

(** The calls that write the device table, and a run of them; a call that
    raises leaves the store to the next call as it stood. *)
Inductive registry_op : Type :=
| Device_set (id show_name : option string) (using_ : option bool)
             (status : option string) (fields : Dict.t value) (now : float)
| Device_remove (id : string) (now : float)
| Device_clear (now : float).

Definition run_registry_op (db : Database) (op : registry_op) : Database :=
  match op with
  | Device_set id show_name using_ status fields now =>
      match device_set id show_name using_ status fields now db with
      | Return _ db' => db'
      | Raise _ db' => db'
      end
  | Device_remove id now => device_remove id now db
  | Device_clear now => device_clear now db
  end.

(** The three tests of the view on an entry's [using] attribute. *)
Definition is_using (kv : string * Dict.t value) : bool :=
  eq_bool (Dict.get "using" (snd kv)) true.

Definition is_not_using (kv : string * Dict.t value) : bool :=
  negb (is_using kv) && eq_bool (Dict.get "using" (snd kv)) false.

Definition is_unknown (kv : string * Dict.t value) : bool :=
  negb (is_using kv) && negb (eq_bool (Dict.get "using" (snd kv)) false).

(** The entry the view shows for an item: its status is overridden when
    the device is not in use. *)
Definition shown (c : ConfigModel) (kv : string * Dict.t value)
  : string * Dict.t value :=
  if eq_bool (Dict.get "using" (snd kv)) false
  then (fst kv, lock_status c (snd kv))
  else kv.

(** The rows of the table as items of the view, in store order. *)
Definition items_of (db : Database) : Dict.t (Dict.t value) :=
  map (fun d => (dev_id d, to_primitive d)) (device_status db).

(** [dict(sorted(...))] when the [sorted] flag is set. *)
Definition arranged (c : ConfigModel) (d : Dict.t (Dict.t value))
  : Dict.t (Dict.t value) :=
  if sorted c then Dict.sorted_items d else d.

(** A row whose status text is replaced by the configured override when
    the device is not in use. *)
Definition overridden (c : ConfigModel) (d : DeviceStatusData) : DeviceStatusData :=
  match dev_using d, not_using c with
  | Some false, Some s =>
      if truthy s
      then {| dev_id := dev_id d; dev_show_name := dev_show_name d;
              dev_using := dev_using d; dev_status := Some s;
              dev_fields := dev_fields d |}
      else d
  | _, _ => d
  end.

(** What the view shows for a row, and the test of a row's [using]
    column against [True], [False] or [None]. *)
Definition entry (c : ConfigModel) (d : DeviceStatusData) : string * Dict.t value :=
  (dev_id d, to_primitive (overridden c d)).

Definition has_using (u : option bool) (d : DeviceStatusData) : bool :=
  match dev_using d, u with
  | Some a, Some b => Bool.eqb a b
  | None, None => true
  | _, _ => false
  end.

(** Items in ascending order of their keys. *)
Definition key_le {V : Type} (a b : string * V) : Prop :=
  String.leb (fst a) (fst b) = true.

(** ** Metrics engine: the snapshot *)


(** The primary key of [metrics]: no two rows share a path. *)
Definition unique_paths (db : Database) : Prop :=
  NoDup (map m_path (metrics db)).

(** ** Plugin data *)

(** [_PluginData], and its table. *)
Record PluginData : Type := {
  plugin_id : string;
  plugin_data : Dict.t value
}.

Definition plugin_find (id : string) (table : list PluginData) : option PluginData :=
  find (fun p => String.eqb (plugin_id p) id) table.

Fixpoint replace_plugin (id : string) (p' : PluginData) (table : list PluginData)
  : list PluginData :=
  match table with
  | [] => []
  | p :: r =>
      if String.eqb (plugin_id p) id then p' :: r else p :: replace_plugin id p' r
  end.

(** [get_plugin_data]: the row is created, with the column default as its
    data, when it is missing. *)
Definition get_plugin_data (id : string) (table : list PluginData)
  : Dict.t value * list PluginData :=
  match plugin_find id table with
  | Some plugin => (plugin_data plugin, table)
  | None =>
      (Dict.empty, table ++ [ {| plugin_id := id; plugin_data := Dict.empty |} ])
  end.

Definition set_plugin_data (id : string) (data : Dict.t value)
    (table : list PluginData) : list PluginData :=
  match plugin_find id table with
  | Some plugin =>
      replace_plugin id {| plugin_id := plugin_id plugin; plugin_data := data |} table
  | None => table ++ [ {| plugin_id := id; plugin_data := data |} ]
  end.

(** ** TTL file cache: the sweep *)

(** [d.pop(k)]. *)
Fixpoint dict_pop {V : Type} (k : string) (d : Dict.t V) : Dict.t V :=
  match d with
  | [] => []
  | (k', v) :: r => if String.eqb k k' then r else (k', v) :: dict_pop k r
  end.

(** [now - t0 > cache_age]. *)
Definition expired (c : ConfigModel) (now t0 : float) : bool :=
  PrimFloat.ltb (cache_age c) (PrimFloat.sub now t0).

(** How [_clean_cache] ends: it returns, or the iteration over
    [self._cache.keys()] raises [RuntimeError] ("dictionary changed size
    during iteration"). *)
Inductive sweep_outcome : Type :=
| Swept (s : CacheState)
| SweepRuntimeError (s : CacheState).

(** The [for name in self._cache.keys()] loop.  Every step of the key
    iterator, the one that ends the loop included, first compares the size
    of the dict with its size when the iteration began, and raises when
    they differ.  The [BytesIO] that is popped is closed; it is held here by
    its content, so closing leaves no trace. *)
Fixpoint clean_loop (c : ConfigModel) (now : float) (names : list string)
    (size : nat) (cache : Dict.t (float * bytes)) (log : list string)
  : sweep_outcome :=
  if negb (Nat.eqb (List.length cache) size) then
    SweepRuntimeError {| _cache := cache; opened := log |}
  else
    match names with
    | [] => Swept {| _cache := cache; opened := log |}
    | name :: rest =>
        let inserted_at :=
          match Dict.get name cache with
          | Some entry => fst entry
          | None => now
          end in
        if expired c now inserted_at
        then clean_loop c now rest size (dict_pop name cache) log
        else clean_loop c now rest size cache log
    end.

Definition _clean_cache (c : ConfigModel) (now : float) (s : CacheState)
  : sweep_outcome :=
  if debug c then Swept s
  else clean_loop c now (Dict.keys (_cache s)) (List.length (_cache s))
                  (_cache s) (opened s).

(** The state a call leaves behind, whether it returned or raised. *)
Definition state_after {A S : Type} (o : outcome A S) : S :=
  match o with
  | Return _ s => s
  | Raise _ s => s
  end.

(* ================================================================== *)
(** * Concrete stores and configurations used in the examples *)
(* ================================================================== *)

Definition awake : StatusItemModel :=
  {| item_id := 0; item_name := "Awake"; item_desc := "up"; item_color := "awake" |}.

Definition asleep : StatusItemModel :=
  {| item_id := 1; item_name := "Asleep"; item_desc := "zzz"; item_color := "sleeping" |}.

Definition sample_config : ConfigModel :=
  {| status_list := [awake; asleep];
     using_first := true;
     sorted := true;
     not_using := Some "idle";
     metrics_enabled := true;
     allow_list := ["/"; "/query"];
     debug := false;
     cache_age := 60%float |}.

Definition laptop : DeviceStatusData :=
  {| dev_id := "laptop";
     dev_show_name := Some "Laptop";
     dev_using := Some true;
     dev_status := Some "coding";
     dev_fields := [("battery", VDict [("level", VInt 80)])] |}.

Definition phone : DeviceStatusData :=
  {| dev_id := "phone";
     dev_show_name := Some "Phone";
     dev_using := Some false;
     dev_status := Some "locked";
     dev_fields := [] |}.

Definition sample_db (private : bool) : Database :=
  {| main := {| main_status := 0; main_private_mode := private;
                main_last_updated := 100%float |};
     device_status := [phone; laptop];
     metrics_meta := Some {| meta_today := "2024-3-15"; meta_week := "2024-11";
                             meta_month := "2024-3"; meta_year := "2024" |};
     metrics := [ {| m_path := "/"; m_daily := 3; m_weekly := 5; m_monthly := 7;
                     m_yearly := 9; m_total := 11 |} ] |}.

(** A second configuration (no grouping, no sorting, no override) and a
    second store in private mode with an empty device table. *)
Definition plain_config : ConfigModel :=
  {| status_list := [awake];
     using_first := false;
     sorted := false;
     not_using := None;
     metrics_enabled := false;
     allow_list := [];
     debug := true;
     cache_age := 0%float |}.

Definition private_empty_db : Database :=
  {| main := {| main_status := 1; main_private_mode := true;
                main_last_updated := 5%float |};
     device_status := [];
     metrics_meta := None;
     metrics := [] |}.

(** A path resolution and a disk for the examples: names that climb out
    of the directory are refused; [/srv/static/index.html] is a file,
    [/srv/static/img] a directory, [/srv/static/logo.bin] a file that is
    not UTF-8, and nothing else exists. *)
Definition sample_join (directory filename : string) : option string :=
  if String.prefix ".." filename then None
  else Some (directory ++ "/" ++ filename)%string.

Definition sample_path (dirname : string) : string := "/srv/" ++ dirname.

Definition sample_disk (page : bytes) : filesystem :=
  fun filepath =>
    if String.eqb filepath "/srv/static/index.html" then Content page
    else if String.eqb filepath "/srv/static/img" then OpenError IsADirectoryError
    else if String.eqb filepath "/srv/static/logo.bin" then Content [xff; xfe]
    else OpenError FileNotFoundError.

Definition empty_cache : CacheState := {| _cache := Dict.empty; opened := [] |}.

(* ================================================================== *)
(** * Properties *)
(* ================================================================== *)

(** ** Status store *)

(** Case analysis on the integer comparisons of a goal. *)
Ltac split_comparisons :=
  repeat match goal with
         | |- context [(?a <? ?b)%Z] => destruct (Z.ltb_spec a b)
         | |- context [(?a <=? ?b)%Z] => destruct (Z.leb_spec a b)
         end;
  cbn [orb]; try reflexivity; try lia.

Lemma list_index_in_range {A : Type} (l : list A) (i : Z) :
  (0 <= i < Z.of_nat (List.length l))%Z ->
  list_index l i = nth_error l (Z.to_nat i).
Proof.
  intros [Hlo Hhi]. unfold list_index. split_comparisons.
Qed.

Lemma list_index_out_of_range {A : Type} (l : list A) (i : Z) :
  (i < - Z.of_nat (List.length l) \/ Z.of_nat (List.length l) <= i)%Z ->
  list_index l i = None.
Proof.
  intros H. unfold list_index. split_comparisons.
Qed.

(** A negative index that is still within the list counts from its end. *)
Lemma list_index_negative {A : Type} (l : list A) (i : Z) :
  (- Z.of_nat (List.length l) <= i < 0)%Z ->
  list_index l i = nth_error l (Z.to_nat (i + Z.of_nat (List.length l))).
Proof.
  intros [Hlo Hhi]. unfold list_index. split_comparisons.
Qed.

(** X24: An id in [-n, 0) is answered with the entry at [n + id]. *)
Lemma get_status_negative_id (c : ConfigModel) (db : Database) (id : Z) :
  (- Z.of_nat (List.length (status_list c)) <= id < 0)%Z ->
  exists item,
    nth_error (status_list c)
              (Z.to_nat (id + Z.of_nat (List.length (status_list c)))) = Some item
    /\ get_status c db id = (true, item).
Proof.
  intros Hneg. unfold get_status. rewrite (list_index_negative _ _ Hneg).
  destruct (nth_error (status_list c)
              (Z.to_nat (id + Z.of_nat (List.length (status_list c)))))
    as [item |] eqn:Hnth.
  - exists item. split; reflexivity.
  - apply nth_error_None in Hnth. lia.
Qed.

(** C6, as stated, fails: the id [-1] is not a position of a two-entry
    catalog, yet [get_status] answers with the last entry instead of the
    "Unknown" fallback. *)
Lemma get_status_negative_id_not_fallback :
  ~ (forall (c : ConfigModel) (db : Database) (id : Z),
        ~ (0 <= id < Z.of_nat (List.length (status_list c)))%Z ->
        item_name (snd (get_status c db id)) = "Unknown"
        /\ item_color (snd (get_status c db id)) = "error").
Proof.
  intros H.
  destruct (H sample_config (sample_db false) (-1)%Z) as [Hname _].
  - simpl. lia.
  - vm_compute in Hname. discriminate Hname.
Qed.

(** C6 (amended): for an id with [id >= n] or [id < -n], where [n] is the
    length of the catalog, [get_status] does not fail and returns the
    fallback record with name "Unknown" and color "error" (and the fixed
    description); for an id with [0 <= id < n] it returns the catalog entry
    at that position. *)
Theorem get_status_fallback (c : ConfigModel) (db : Database) (id : Z) :
  ((id < - Z.of_nat (List.length (status_list c))
    \/ Z.of_nat (List.length (status_list c)) <= id)%Z ->
   get_status c db id =
     (false, {| item_id := status_id db; item_name := "Unknown";
                item_desc := unknown_desc; item_color := "error" |}))
  /\ ((0 <= id < Z.of_nat (List.length (status_list c)))%Z ->
      exists item, nth_error (status_list c) (Z.to_nat id) = Some item
                   /\ get_status c db id = (true, item)).
Proof.
  split.
  - intros Hout. unfold get_status.
    rewrite (list_index_out_of_range _ _ Hout). reflexivity.
  - intros Hin. unfold get_status.
    rewrite (list_index_in_range _ _ Hin).
    destruct (nth_error (status_list c) (Z.to_nat id)) as [item |] eqn:Hnth.
    + exists item. split; reflexivity.
    + apply nth_error_None in Hnth. lia.
Qed.

Lemma get_status_fallback_witness :
  get_status sample_config (sample_db false) 7 =
    (false, {| item_id := 0; item_name := "Unknown";
               item_desc := unknown_desc; item_color := "error" |})
  /\ get_status sample_config (sample_db false) 1 = (true, asleep).
Proof.
  split.
  - apply (proj1 (get_status_fallback sample_config (sample_db false) 7)).
    right. simpl. lia.
  - destruct (proj2 (get_status_fallback sample_config (sample_db false) 1))
      as [item [Hnth Hget]].
    + simpl. lia.
    + simpl in Hnth. injection Hnth as <-. exact Hget.
Defined.

(** ** Device registry *)

(** C1: in private mode [device_list] (and [_raw_device_list] under it)
    returns the empty mapping whatever the device table holds; hence two
    stores in private mode give the same output, under any device-view
    policy. *)
Theorem device_list_private (c1 c2 : ConfigModel) (db1 db2 : Database) :
  private_mode db1 = true ->
  private_mode db2 = true ->
  device_list c1 db1 = Dict.empty
  /\ _raw_device_list db1 = Dict.empty
  /\ device_list c1 db1 = device_list c2 db2.
Proof.
  intros H1 H2. unfold device_list, _raw_device_list.
  rewrite H1, H2. repeat split.
Qed.

Lemma device_list_private_witness :
  device_list sample_config (sample_db true) = Dict.empty
  /\ _raw_device_list (sample_db true) = Dict.empty
  /\ device_list sample_config (sample_db true)
     = device_list plain_config private_empty_db.
Proof.
  exact (device_list_private sample_config plain_config
           (sample_db true) private_empty_db eq_refl eq_refl).
Defined.

(** What the view is outside private mode, on the sample store: the using
    group first, then the not-using group with its status overridden. *)
Example device_list_sample :
  device_list sample_config (sample_db false) =
    [ ("laptop", to_primitive laptop);
      ("phone", Dict.set "status" (VStr "idle") (to_primitive phone)) ].
Proof. reflexivity. Qed.

Example device_list_plain_sample :
  device_list plain_config (sample_db false) =
    [ ("phone", to_primitive phone); ("laptop", to_primitive laptop) ].
Proof. reflexivity. Qed.

Example sorted_items_sample :
  Dict.sorted_items [("b", 1); ("a", 2); ("B", 3); ("ab", 4)]
  = [("B", 3); ("a", 2); ("ab", 4); ("b", 1)].
Proof. reflexivity. Qed.

(** C8: [device_set] with an empty (or missing) id raises a validation
    error; so does a call whose id matches no device and whose show_name is
    missing or empty; in both cases the store is left exactly as it was. *)
Theorem device_set_validation
    (id show_name : option string) (using_ : option bool)
    (status : option string) (fields : Dict.t value) (now : float)
    (db : Database) :
  (truthy_opt id = false
   \/ (truthy_opt show_name = false
       /\ forall i, id = Some i -> device_get i db = None)) ->
  exists e, device_set id show_name using_ status fields now db = Raise e db
            /\ is_validation_error e = true.
Proof.
  intros H. unfold device_set.
  destruct id as [[| a i] |].
  - eexists. split; reflexivity.
  - destruct H as [H | [Hname Hnew]]; [discriminate H |].
    rewrite (Hnew _ eq_refl), Hname. eexists. split; reflexivity.
  - eexists. split; reflexivity.
Qed.

Lemma device_set_validation_witness :
  (exists e, device_set (Some "") (Some "Tablet") None None [] 7%float
                        (sample_db false) = Raise e (sample_db false)
             /\ is_validation_error e = true)
  /\ (exists e, device_set (Some "tablet") None (Some true) (Some "x") [] 7%float
                           (sample_db false) = Raise e (sample_db false)
                /\ is_validation_error e = true).
Proof.
  split.
  - apply device_set_validation. left. reflexivity.
  - apply device_set_validation. right. split; [reflexivity |].
    intros i Hi. injection Hi as <-. reflexivity.
Defined.

Lemma device_get_id (i : string) (db : Database) (d : DeviceStatusData) :
  device_get i db = Some d -> dev_id d = i.
Proof.
  unfold device_get. intros H. apply find_some in H.
  apply String.eqb_eq. exact (proj2 H).
Qed.

Lemma find_replace_first (i : string) (d' : DeviceStatusData)
    (rows : list DeviceStatusData) :
  dev_id d' = i ->
  find (fun d => String.eqb (dev_id d) i) rows <> None ->
  find (fun d => String.eqb (dev_id d) i) (replace_first i d' rows) = Some d'.
Proof.
  intros Hid. induction rows as [| d r IH]; simpl; intros Hfound.
  - contradiction.
  - destruct (String.eqb (dev_id d) i) eqn:Hd; simpl.
    + rewrite Hid, String.eqb_refl. reflexivity.
    + rewrite Hd. apply IH. exact Hfound.
Qed.

Lemma find_app_new (i : string) (d' : DeviceStatusData)
    (rows : list DeviceStatusData) :
  dev_id d' = i ->
  find (fun d => String.eqb (dev_id d) i) rows = None ->
  find (fun d => String.eqb (dev_id d) i) (rows ++ [d']) = Some d'.
Proof.
  intros Hid. induction rows as [| d r IH]; simpl; intros Hnone.
  - rewrite Hid, String.eqb_refl. reflexivity.
  - destruct (String.eqb (dev_id d) i); [discriminate | apply IH; exact Hnone].
Qed.

(** What one accepted [device_set] call leaves: the row of that id carries
    the assigned attributes, and the store's [last_updated] is [now]. *)
Lemma device_set_returns (i : string) (show_name : option string)
    (using_ : option bool) (status : option string) (fields : Dict.t value)
    (now : float) (db db' : Database) :
  device_set (Some i) show_name using_ status fields now db = Return tt db' ->
  let before :=
    match device_get i db with
    | Some d => d
    | None => new_device i
    end in
  device_get i db' = Some (assign before show_name using_ status fields)
  /\ last_updated db' = now.
Proof.
  unfold device_set. destruct i as [| a i]; [discriminate |].
  destruct (device_get (String a i) db) as [d |] eqn:Hget.
  - intros H. injection H as <-. split; [| reflexivity].
    unfold device_get. simpl. apply find_replace_first.
    + simpl. exact (device_get_id _ _ _ Hget).
    + unfold device_get in Hget. rewrite Hget. discriminate.
  - destruct (truthy_opt show_name); [| discriminate].
    intros H. injection H as <-. split; [| reflexivity].
    unfold device_get. simpl. apply find_app_new; [reflexivity | exact Hget].
Qed.

(** C9, as stated, fails: an empty string is a provided, non-null status,
    yet [status or device.status] keeps the stored text. *)
Lemma device_set_empty_status_kept :
  ~ (forall (db db' : Database) (i : string) (dev : DeviceStatusData)
            (show_name : option string) (using_ : option bool)
            (status : string) (fields : Dict.t value) (now : float),
        device_get i db = Some dev ->
        device_set (Some i) show_name using_ (Some status) fields now db
          = Return tt db' ->
        exists dev', device_get i db' = Some dev'
                     /\ dev_status dev' = Some status).
Proof.
  intros H.
  destruct (H (sample_db false) _ "laptop" laptop None None "" [] 7%float
              eq_refl eq_refl) as [dev' [Hget Hstatus]].
  vm_compute in Hget. injection Hget as <-.
  discriminate Hstatus.
Qed.

(** C9 (amended): on an existing device, a provided show_name or status
    that is non-null and non-empty overwrites the stored value, a provided
    non-null using overwrites the stored value, an omitted (null) argument
    leaves the stored value unchanged, and after the commit the store's
    [last_updated] is set to the clock reading. *)
Theorem device_set_overwrites
    (i : string) (dev : DeviceStatusData) (show_name : option string)
    (using_ : option bool) (status : option string) (fields : Dict.t value)
    (now : float) (db : Database) :
  i <> "" ->
  device_get i db = Some dev ->
  exists db' dev',
    device_set (Some i) show_name using_ status fields now db = Return tt db'
    /\ device_get i db' = Some dev'
    /\ (forall s, show_name = Some s -> s <> "" -> dev_show_name dev' = Some s)
    /\ (show_name = None -> dev_show_name dev' = dev_show_name dev)
    /\ (forall b, using_ = Some b -> dev_using dev' = Some b)
    /\ (using_ = None -> dev_using dev' = dev_using dev)
    /\ (forall s, status = Some s -> s <> "" -> dev_status dev' = Some s)
    /\ (status = None -> dev_status dev' = dev_status dev)
    /\ last_updated db' = now.
Proof.
  intros Hi Hget.
  assert (Hret : exists db',
             device_set (Some i) show_name using_ status fields now db
             = Return tt db').
  { unfold device_set. destruct i as [| a i]; [contradiction |].
    rewrite Hget. eexists. reflexivity. }
  destruct Hret as [db' Hret].
  pose proof (device_set_returns _ _ _ _ _ _ _ _ Hret) as [Hget' Hupd].
  rewrite Hget in Hget'.
  exists db', (assign dev show_name using_ status fields).
  split; [exact Hret |]. split; [exact Hget' |].
  simpl. unfold py_or.
  repeat split.
  - intros s -> Hs. destruct s; [contradiction | reflexivity].
  - intros ->. reflexivity.
  - intros b ->. reflexivity.
  - intros ->. reflexivity.
  - intros s -> Hs. destruct s; [contradiction | reflexivity].
  - intros ->. reflexivity.
  - exact Hupd.
Qed.

Lemma device_set_overwrites_witness :
  exists db' dev',
    device_set (Some "phone") (Some "Pixel") (Some true) None [] 42%float
               (sample_db false) = Return tt db'
    /\ device_get "phone" db' = Some dev'
    /\ dev_show_name dev' = Some "Pixel"
    /\ dev_using dev' = Some true
    /\ dev_status dev' = Some "locked"
    /\ last_updated db' = 42%float.
Proof.
  destruct (device_set_overwrites "phone" phone (Some "Pixel") (Some true)
              None [] 42%float (sample_db false))
    as [db' [dev' [Hret [Hget [Hname [_ [Husing [_ [_ [Hstatus Hupd]]]]]]]]]].
  - discriminate.
  - reflexivity.
  - exists db', dev'. repeat split.
    + exact Hret.
    + exact Hget.
    + apply Hname; [reflexivity | discriminate].
    + apply Husing. reflexivity.
    + rewrite Hstatus; reflexivity.
    + exact Hupd.
Defined.

(** The string arguments are taken with [or]: an empty string counts as
    not provided. *)
Example device_set_empty_strings :
  exists db',
    device_set (Some "laptop") (Some "") None (Some "") [] 42%float
               (sample_db false) = Return tt db'
    /\ device_get "laptop" db' = Some laptop.
Proof. eexists. split; reflexivity. Qed.

(** *** The merge of [fields] *)

Lemma get_set_same {V : Type} (k : string) (v : V) (d : Dict.t V) :
  Dict.get k (Dict.set k v d) = Some v.
Proof.
  induction d as [| [k' v'] r IH]; simpl.
  - rewrite String.eqb_refl. reflexivity.
  - destruct (String.eqb k k') eqn:Hk; simpl.
    + rewrite String.eqb_refl. reflexivity.
    + rewrite Hk. exact IH.
Qed.

Lemma get_set_other {V : Type} (k k' : string) (v : V) (d : Dict.t V) :
  k <> k' -> Dict.get k (Dict.set k' v d) = Dict.get k d.
Proof.
  intros Hne. induction d as [| [k0 v0] r IH]; simpl.
  - destruct (String.eqb_spec k k'); [contradiction | reflexivity].
  - destruct (String.eqb_spec k' k0) as [<- | Hk0]; simpl.
    + destruct (String.eqb_spec k k'); [contradiction | reflexivity].
    + destruct (String.eqb_spec k k0); [reflexivity | exact IH].
Qed.

Lemma get_absent {V : Type} (k : string) (d : Dict.t V) :
  ~ In k (Dict.keys d) -> Dict.get k d = None.
Proof.
  induction d as [| [k' v'] r IH]; simpl; intros Hnot; [reflexivity |].
  destruct (String.eqb_spec k k') as [-> | Hne].
  - exfalso. apply Hnot. left. reflexivity.
  - apply IH. intros Hin. apply Hnot. right. exact Hin.
Qed.

Lemma deep_merge_dict_items (a b : Dict.t value) :
  deep_merge_dict a b = merge_items a a b.
Proof.
  unfold deep_merge_dict. simpl.
  generalize a at 2 4 as acc. induction b as [| [k v] rest IH]; intros acc; simpl.
  - reflexivity.
  - apply IH.
Qed.

Lemma merge_items_get (a : Dict.t value) (items : list (string * value)) :
  forall (acc : Dict.t value) (k : string),
    NoDup (Dict.keys items) ->
    Dict.get k (merge_items a acc items) =
      match Dict.get k items with
      | Some v => Some (merged_value a k v)
      | None => Dict.get k acc
      end.
Proof.
  induction items as [| [k1 v1] rest IH]; intros acc k Hnd; simpl.
  - reflexivity.
  - inversion Hnd as [| ? ? Hnotin Hnd']. subst.
    rewrite (IH _ _ Hnd').
    destruct (String.eqb_spec k k1) as [-> | Hne].
    + rewrite (get_absent _ _ Hnotin). apply get_set_same.
    + destruct (Dict.get k rest); [reflexivity |].
      apply get_set_other. exact Hne.
Qed.

(** The merge law, key by key: a key of the new mapping holds the merge of
    the two values when both are mappings and the new value otherwise; a key
    the new mapping lacks keeps its old value. *)
Lemma deep_merge_dict_get (a b : Dict.t value) (k : string) :
  NoDup (Dict.keys b) ->
  Dict.get k (deep_merge_dict a b) =
    match Dict.get k b, Dict.get k a with
    | Some (VDict y), Some (VDict x) => Some (VDict (deep_merge_dict x y))
    | Some v, _ => Some v
    | None, old => old
    end.
Proof.
  intros Hnd. rewrite deep_merge_dict_items, (merge_items_get _ _ _ _ Hnd).
  unfold merged_value.
  destruct (Dict.get k b) as [v |]; [| reflexivity].
  destruct (Dict.get k a) as [o |]; [| destruct v; reflexivity].
  destruct o, v; reflexivity.
Qed.

(** The merge of the spec: [{a:{x:1}}] then [{a:{y:2}}]. *)
Example deep_merge_nested :
  deep_merge_dict [("a", VDict [("x", VInt 1)])] [("a", VDict [("y", VInt 2)])]
  = [("a", VDict [("x", VInt 1); ("y", VInt 2)])].
Proof. reflexivity. Qed.

(** A run of accepted calls folds the merge over their fields. *)
Lemma device_set_all_fields (i : string) (calls : list upsert) :
  forall db db' : Database,
    device_set_all (Some i) calls db = Some db' ->
    match calls with
    | [] => db' = db
    | _ :: _ =>
        exists dev,
          device_get i db' = Some dev
          /\ dev_fields dev =
               fold_left deep_merge_dict (map up_fields calls) (fields_of i db)
    end.
Proof.
  induction calls as [| u rest IH]; intros db db' Hrun;
    cbn [device_set_all] in Hrun.
  - injection Hrun as <-. reflexivity.
  - destruct (device_set (Some i) (up_show_name u) (up_using u) (up_status u)
                         (up_fields u) (up_now u) db) as [[] db1 | e db1] eqn:Hset;
      [| discriminate].
    pose proof (device_set_returns _ _ _ _ _ _ _ _ Hset) as [Hget1 _].
    assert (Hfields : fields_of i db1
                      = deep_merge_dict (fields_of i db) (up_fields u)).
    { unfold fields_of. rewrite Hget1. simpl.
      destruct (device_get i db); reflexivity. }
    specialize (IH db1 db' Hrun). simpl.
    destruct rest as [| u' rest'].
    + subst db'. eexists. split; [exact Hget1 |].
      simpl. unfold fields_of in Hfields. rewrite Hget1 in Hfields. exact Hfields.
    + destruct IH as [dev [Hget Hdev]]. exists dev. split; [exact Hget |].
      rewrite Hdev, Hfields. reflexivity.
Qed.

(** C2: after a sequence of [device_set] calls for one id, each accepted,
    with fields mappings f1, ..., fn, [device_get] returns a row whose
    fields are the deep merge of f1, ..., fn, in order, into the fields the
    device had before (the empty mapping for a new device); the merge is
    recursive key by key, so fields are never replaced wholesale. *)
Theorem device_set_merges_fields (i : string) (calls : list upsert)
    (db db' : Database) :
  calls <> [] ->
  device_set_all (Some i) calls db = Some db' ->
  (exists dev,
      device_get i db' = Some dev
      /\ dev_fields dev =
           fold_left deep_merge_dict (map up_fields calls) (fields_of i db))
  /\ (forall (a b : Dict.t value) (k : string),
         NoDup (Dict.keys b) ->
         Dict.get k (deep_merge_dict a b) =
           match Dict.get k b, Dict.get k a with
           | Some (VDict y), Some (VDict x) => Some (VDict (deep_merge_dict x y))
           | Some v, _ => Some v
           | None, old => old
           end).
Proof.
  intros Hne Hrun. split.
  - pose proof (device_set_all_fields i calls db db' Hrun) as H.
    destruct calls as [| u rest]; [contradiction | exact H].
  - intros a b k. apply deep_merge_dict_get.
Qed.

Lemma device_set_merges_fields_witness :
  exists db' dev,
    device_set_all (Some "tablet")
      [ {| up_show_name := Some "Tablet"; up_using := None; up_status := None;
           up_fields := [("a", VDict [("x", VInt 1)])]; up_now := 1%float |};
        {| up_show_name := None; up_using := Some true; up_status := None;
           up_fields := [("a", VDict [("y", VInt 2)])]; up_now := 2%float |} ]
      (sample_db false) = Some db'
    /\ device_get "tablet" db' = Some dev
    /\ dev_fields dev = [("a", VDict [("x", VInt 1); ("y", VInt 2)])].
Proof.
  eexists.
  destruct (device_set_merges_fields "tablet"
              [ {| up_show_name := Some "Tablet"; up_using := None;
                   up_status := None;
                   up_fields := [("a", VDict [("x", VInt 1)])];
                   up_now := 1%float |};
                {| up_show_name := None; up_using := Some true;
                   up_status := None;
                   up_fields := [("a", VDict [("y", VInt 2)])];
                   up_now := 2%float |} ]
              (sample_db false) _ ltac:(discriminate) eq_refl)
    as [[dev [Hget Hfields]] _].
  exists dev. split; [reflexivity |]. split; [exact Hget |].
  rewrite Hfields. reflexivity.
Defined.

(** ** Metrics engine *)

Lemma metric_get_path (path : string) (db : Database) (m : MetricsData) :
  metric_get path db = Some m -> m_path m = path.
Proof.
  unfold metric_get. intros H. apply find_some in H.
  apply String.eqb_eq. exact (proj2 H).
Qed.

Lemma find_replace_metric (path : string) (m' : MetricsData)
    (rows : list MetricsData) :
  m_path m' = path ->
  find (fun m => String.eqb (m_path m) path) rows <> None ->
  find (fun m => String.eqb (m_path m) path) (replace_metric path m' rows)
  = Some m'.
Proof.
  intros Hp. induction rows as [| m r IH]; simpl; intros Hfound.
  - contradiction.
  - destruct (String.eqb (m_path m) path) eqn:Hm; simpl.
    + rewrite Hp, String.eqb_refl. reflexivity.
    + rewrite Hm. apply IH. exact Hfound.
Qed.

Lemma find_app_metric (path : string) (m' : MetricsData)
    (rows : list MetricsData) :
  m_path m' = path ->
  find (fun m => String.eqb (m_path m) path) rows = None ->
  find (fun m => String.eqb (m_path m) path) (rows ++ [m']) = Some m'.
Proof.
  intros Hp. induction rows as [| m r IH]; simpl; intros Hnone.
  - rewrite Hp, String.eqb_refl. reflexivity.
  - destruct (String.eqb (m_path m) path); [discriminate | apply IH; exact Hnone].
Qed.

Lemma bump_path (override : bool) (count : Z) (m : MetricsData) :
  m_path (bump override count m) = m_path m.
Proof. destruct override; reflexivity. Qed.

(** The row of an allow-listed path after one [record_metrics]. *)
Lemma record_metrics_allowed (c : ConfigModel) (path : string) (count : Z)
    (override : bool) (db : Database) :
  allowed c path = true ->
  metric_get path (record_metrics c path count override db) =
    Some (bump override count
            match metric_get path db with
            | Some m => m
            | None => new_metric path
            end).
Proof.
  intros Hal. unfold record_metrics. rewrite Hal. simpl.
  destruct (metric_get path db) as [m |] eqn:Hget; unfold metric_get; simpl.
  - apply find_replace_metric.
    + rewrite bump_path. exact (metric_get_path _ _ _ Hget).
    + unfold metric_get in Hget. rewrite Hget. discriminate.
  - apply find_app_metric; [rewrite bump_path; reflexivity | exact Hget].
Qed.

(** C4: [record_metrics] leaves the store unchanged for a path outside the
    allow-list; for an allow-listed path it fetches or creates the row (a
    new row has five zero counters) and adds [count] to the five counters,
    or sets them to [count] under [override]; on a path with no row yet,
    recording 5 and then 3 gives 8 in every counter, and an override of 3
    after that gives 3 in every counter. *)
Theorem record_metrics_spec (c : ConfigModel) (path : string) (db : Database) :
  (allowed c path = false ->
   forall count override, record_metrics c path count override db = db)
  /\ (allowed c path = true ->
      forall count override,
      exists old m',
        old = match metric_get path db with
              | Some m => m
              | None => new_metric path
              end
        /\ (metric_get path db = None -> all_counters old 0)
        /\ metric_get path (record_metrics c path count override db) = Some m'
        /\ m_path m' = path
        /\ (override = false ->
            m_daily m' = (m_daily old + count)%Z
            /\ m_weekly m' = (m_weekly old + count)%Z
            /\ m_monthly m' = (m_monthly old + count)%Z
            /\ m_yearly m' = (m_yearly old + count)%Z
            /\ m_total m' = (m_total old + count)%Z)
        /\ (override = true -> all_counters m' count))
  /\ (allowed c path = true ->
      metric_get path db = None ->
      (exists m, metric_get path
                   (record_metrics c path 3 false
                      (record_metrics c path 5 false db)) = Some m
                 /\ all_counters m 8)
      /\ (exists m, metric_get path
                      (record_metrics c path 3 true
                         (record_metrics c path 3 false
                            (record_metrics c path 5 false db))) = Some m
                    /\ all_counters m 3)).
Proof.
  split; [| split].
  - intros Hal count override. unfold record_metrics. rewrite Hal. reflexivity.
  - intros Hal count override.
    eexists. eexists. split; [reflexivity |].
    split.
    { intros Hnone. rewrite Hnone. repeat split. }
    split; [apply record_metrics_allowed; exact Hal |].
    split.
    { rewrite bump_path.
      destruct (metric_get path db) as [m |] eqn:Hget;
        [exact (metric_get_path _ _ _ Hget) | reflexivity]. }
    split; intros ->; repeat split.
  - intros Hal Hnone. split.
    + eexists. split.
      * rewrite (record_metrics_allowed c path 3 false _ Hal).
        rewrite (record_metrics_allowed c path 5 false _ Hal).
        rewrite Hnone. reflexivity.
      * repeat split.
    + eexists. split.
      * rewrite (record_metrics_allowed c path 3 true _ Hal).
        rewrite (record_metrics_allowed c path 3 false _ Hal).
        rewrite (record_metrics_allowed c path 5 false _ Hal).
        rewrite Hnone. reflexivity.
      * repeat split.
Qed.

Lemma record_metrics_spec_witness :
  record_metrics sample_config "/admin" 4 false (sample_db false)
  = sample_db false
  /\ (exists m, metric_get "/query"
                  (record_metrics sample_config "/query" 3 false
                     (record_metrics sample_config "/query" 5 false
                        (sample_db false))) = Some m
                /\ all_counters m 8).
Proof.
  pose proof (record_metrics_spec sample_config "/admin" (sample_db false))
    as [Hno _].
  pose proof (record_metrics_spec sample_config "/query" (sample_db false))
    as [_ [_ Hseq]].
  split.
  - apply Hno. reflexivity.
  - exact (proj1 (Hseq eq_refl eq_refl)).
Defined.

(** The scenario of the spec: three hits on ["/"], then a day change. *)
Example metrics_scenario :
  let c := sample_config in
  let db := run_ops c [Metrics_refresh
                         {| dt_year := 2024; dt_month := 3; dt_day := 15; dt_week := 11 |};
                       Record_metrics "/" 1 false;
                       Record_metrics "/" 1 false;
                       Record_metrics "/" 1 false] (init c 0%float) in
  metric_data_index db = (3, 3, 3, 3, 3)%Z
  /\ metric_data_index
       (run_op c db (Metrics_refresh
                       {| dt_year := 2024; dt_month := 3; dt_day := 16; dt_week := 11 |}))
     = (0, 3, 3, 3, 3)%Z.
Proof. split; reflexivity. Qed.

Lemma nonneg_bump (override : bool) (count : Z) (m : MetricsData) :
  (0 <= count)%Z -> nonneg m -> nonneg (bump override count m).
Proof.
  unfold nonneg. intros Hc H. destruct override; simpl; lia.
Qed.

Lemma nonneg_replace_metric (path : string) (m' : MetricsData)
    (rows : list MetricsData) :
  nonneg m' -> Forall nonneg rows -> Forall nonneg (replace_metric path m' rows).
Proof.
  intros Hm'. induction 1 as [| m r Hm Hr IH]; simpl.
  - constructor.
  - destruct (String.eqb (m_path m) path); constructor; assumption.
Qed.

Lemma nonneg_record_metrics (c : ConfigModel) (path : string) (count : Z)
    (override : bool) (db : Database) :
  (0 <= count)%Z ->
  Forall nonneg (metrics db) ->
  Forall nonneg (metrics (record_metrics c path count override db)).
Proof.
  intros Hc Hdb. unfold record_metrics.
  destruct (allowed c path); simpl; [| exact Hdb].
  destruct (metric_get path db) as [m |] eqn:Hget; simpl.
  - apply nonneg_replace_metric; [| exact Hdb].
    apply nonneg_bump; [exact Hc |].
    unfold metric_get in Hget. apply find_some in Hget.
    rewrite Forall_forall in Hdb. apply Hdb. exact (proj1 Hget).
  - apply Forall_app. split; [exact Hdb |].
    constructor; [| constructor].
    apply nonneg_bump; [exact Hc |]. unfold nonneg. simpl. lia.
Qed.

Lemma nonneg_roll (key : string) (marker : MetricsMetaData -> string)
    (store : string -> MetricsMetaData -> MetricsMetaData)
    (zero : MetricsData -> MetricsData)
    (st : MetricsMetaData * list MetricsData) :
  (forall m, nonneg m -> nonneg (zero m)) ->
  Forall nonneg (snd st) ->
  Forall nonneg (snd (roll key marker store zero st)).
Proof.
  intros Hzero Hst. unfold roll.
  destruct (negb (String.eqb key (marker (fst st)))); simpl; [| exact Hst].
  rewrite Forall_forall in *. intros m' Hin.
  apply in_map_iff in Hin. destruct Hin as [m [<- Hin]].
  apply Hzero, Hst, Hin.
Qed.

Lemma nonneg_run_op (c : ConfigModel) (db : Database) (op : metrics_op) :
  (forall path count override,
      op = Record_metrics path count override -> (0 <= count)%Z) ->
  Forall nonneg (metrics db) ->
  Forall nonneg (metrics (run_op c db op)).
Proof.
  intros Hop Hdb. destruct op as [path count override | now]; simpl.
  - apply nonneg_record_metrics; [exact (Hop _ _ _ eq_refl) | exact Hdb].
  - unfold _metrics_refresh. destruct (metrics_meta db) as [meta |]; [| exact Hdb].
    simpl.
    repeat (apply nonneg_roll;
            [intros m Hm; unfold nonneg in *; simpl; lia |]).
    exact Hdb.
Qed.

(** C10, as stated, fails: [count] is any [int], and a negative count on a
    fresh store leaves negative counters. *)
Lemma negative_count_negative_counters :
  ~ (forall (c : ConfigModel) (t : float) (ops : list metrics_op),
        Forall nonneg (metrics (run_ops c ops (init c t)))).
Proof.
  intros H.
  specialize (H sample_config 0%float [Record_metrics "/" (-1) false]).
  vm_compute in H. inversion H as [| m r Hm Hr]. subst.
  destruct Hm as [Hd _]. apply Hd. reflexivity.
Qed.

(** C10 (amended): after any sequence of [record_metrics] calls with a
    non-negative [count] and [_metrics_refresh] calls, starting from a
    fresh store, every counter of every row is non-negative. *)
Theorem counters_nonneg (c : ConfigModel) (t : float) (ops : list metrics_op) :
  (forall path count override,
      In (Record_metrics path count override) ops -> (0 <= count)%Z) ->
  Forall nonneg (metrics (run_ops c ops (init c t))).
Proof.
  intros Hops. unfold run_ops.
  assert (Hinit : Forall nonneg (metrics (init c t))) by constructor.
  revert Hinit. generalize (init c t) as db.
  induction ops as [| op ops IH]; intros db Hdb; simpl.
  - exact Hdb.
  - apply IH.
    + intros path count override Hin. apply (Hops path count override).
      right. exact Hin.
    + apply nonneg_run_op; [| exact Hdb].
      intros path count override ->. apply (Hops path count override).
      left. reflexivity.
Qed.

Lemma counters_nonneg_witness :
  Forall nonneg
    (metrics
       (run_ops sample_config
          [Record_metrics "/" 2 false;
           Metrics_refresh {| dt_year := 2024; dt_month := 3; dt_day := 15;
                              dt_week := 11 |};
           Record_metrics "/" 0 true;
           Record_metrics "/query" 5 false]
          (init sample_config 0%float))).
Proof.
  apply counters_nonneg.
  intros path count override Hin. simpl in Hin.
  destruct Hin as [H | [H | [H | [H | []]]]];
    try discriminate H; injection H as _ <- _; lia.
Defined.

Lemma metric_eta (m : MetricsData) :
  {| m_path := m_path m; m_daily := m_daily m; m_weekly := m_weekly m;
     m_monthly := m_monthly m; m_yearly := m_yearly m; m_total := m_total m |} = m.
Proof. destruct m; reflexivity. Qed.

Lemma map_id_ext {A : Type} (f : A -> A) (l : list A) :
  (forall a, f a = a) -> map f l = l.
Proof.
  intros Hf. induction l as [| a l IH]; simpl; [reflexivity |].
  rewrite Hf, IH. reflexivity.
Qed.

(** The four blocks of [_metrics_refresh] in one step. *)
Lemma metrics_refresh_rolled (now : datetime) (db : Database)
    (meta : MetricsMetaData) :
  metrics_meta db = Some meta ->
  _metrics_refresh now db =
    Return tt {| main := main db;
                 device_status := device_status db;
                 metrics_meta :=
                   Some {| meta_today := today_key now; meta_week := week_key now;
                           meta_month := month_key now; meta_year := year_key now |};
                 metrics := map (rolled now meta) (metrics db) |}.
Proof.
  intros Hmeta. unfold _metrics_refresh. rewrite Hmeta.
  unfold roll, rolled. destruct meta as [td wk mo yr].
  generalize (today_key now) (week_key now) (month_key now) (year_key now).
  intros kd kw km ky. simpl.
  destruct (String.eqb_spec kd td) as [<- | Htd]; simpl;
    destruct (String.eqb_spec kw wk) as [<- | Hwk]; simpl;
    destruct (String.eqb_spec km mo) as [<- | Hmo]; simpl;
    destruct (String.eqb_spec ky yr) as [<- | Hyr]; simpl;
    repeat rewrite map_map; simpl;
    try (rewrite (map_id_ext _ (metrics db)) by (intros m; apply metric_eta));
    reflexivity.
Qed.

(** A refresh whose four keys equal the stored markers changes nothing. *)
Lemma metrics_refresh_same_period (now : datetime) (db : Database) :
  metrics_meta db =
    Some {| meta_today := today_key now; meta_week := week_key now;
            meta_month := month_key now; meta_year := year_key now |} ->
  _metrics_refresh now db = Return tt db.
Proof.
  intros Hmeta. rewrite (metrics_refresh_rolled now db _ Hmeta).
  destruct db as [mn devs mt rows]. simpl in *. subst mt.
  f_equal. f_equal.
  apply map_id_ext. intros m. unfold rolled. simpl.
  rewrite !String.eqb_refl. apply metric_eta.
Qed.

(** C3: a second [_metrics_refresh] whose four period keys equal those of
    the first resets nothing and leaves every row and the markers exactly
    as the first call left them (also when rows were recorded in between,
    as long as the markers are those the first call stored); and the first
    call zeroes, in every row, exactly the counters whose period key differs
    from the stored marker (each of the four decided on its own), storing
    the four keys. *)
Theorem metrics_refresh_idempotent (now1 now2 : datetime) (db : Database)
    (meta : MetricsMetaData) :
  metrics_meta db = Some meta ->
  today_key now2 = today_key now1 ->
  week_key now2 = week_key now1 ->
  month_key now2 = month_key now1 ->
  year_key now2 = year_key now1 ->
  exists db1,
    _metrics_refresh now1 db = Return tt db1
    /\ _metrics_refresh now2 db1 = Return tt db1
    /\ (forall db2, metrics_meta db2 = metrics_meta db1 ->
                    _metrics_refresh now2 db2 = Return tt db2)
    /\ metrics db1 = map (rolled now1 meta) (metrics db)
    /\ metrics_meta db1 =
         Some {| meta_today := today_key now1; meta_week := week_key now1;
                 meta_month := month_key now1; meta_year := year_key now1 |}.
Proof.
  intros Hmeta Htd Hwk Hmo Hyr.
  eexists. split; [apply metrics_refresh_rolled; exact Hmeta |].
  assert (Hsame : forall db2,
             metrics_meta db2 =
               Some {| meta_today := today_key now1; meta_week := week_key now1;
                       meta_month := month_key now1; meta_year := year_key now1 |} ->
             _metrics_refresh now2 db2 = Return tt db2).
  { intros db2 H2. apply metrics_refresh_same_period.
    rewrite Htd, Hwk, Hmo, Hyr. exact H2. }
  split; [apply Hsame; reflexivity |].
  split; [intros db2 H2; apply Hsame; exact H2 |].
  split; reflexivity.
Qed.

Lemma metrics_refresh_idempotent_witness :
  let now1 := {| dt_year := 2024; dt_month := 3; dt_day := 16; dt_week := 11 |} in
  exists db1,
    _metrics_refresh now1 (sample_db false) = Return tt db1
    /\ _metrics_refresh now1 db1 = Return tt db1
    /\ metrics db1 = [ {| m_path := "/"; m_daily := 0; m_weekly := 5;
                          m_monthly := 7; m_yearly := 9; m_total := 11 |} ].
Proof.
  intros now1.
  destruct (metrics_refresh_idempotent now1 now1 (sample_db false) _
              eq_refl eq_refl eq_refl eq_refl eq_refl)
    as [db1 [H1 [H2 [_ [Hrows _]]]]].
  exists db1. split; [exact H1 |]. split; [exact H2 |].
  rewrite Hrows. reflexivity.
Defined.

(** ** TTL file cache *)

Section FileCacheProperties.

Variable safe_join : string -> string -> option string.
Variable get_path : string -> string.

(** A fresh entry is returned as it is: the state, and with it the log of
    opened paths, does not change. *)
Lemma get_cached_file_hit (c : ConfigModel) (fs : filesystem) (now : float)
    (dirname filename filepath : string) (s : CacheState) (t0 : float) (b : bytes) :
  debug c = false ->
  safe_join (get_path dirname) filename = Some filepath ->
  filepath <> "" ->
  Dict.get (cache_key dirname filename) (_cache s) = Some (t0, b) ->
  PrimFloat.ltb (PrimFloat.sub now t0) (cache_age c) = true ->
  get_cached_file safe_join get_path c fs now dirname filename s
  = Return (Some b) s.
Proof.
  intros Hdebug Hjoin Hpath Hget Hfresh. unfold get_cached_file.
  rewrite Hjoin. destruct filepath as [| a p]; [contradiction |].
  rewrite Hdebug, Hget, Hfresh. reflexivity.
Qed.

(** With no entry, or a stale one, the file is read once and stored under
    the current clock reading. *)
Lemma get_cached_file_miss (c : ConfigModel) (fs : filesystem) (now : float)
    (dirname filename filepath : string) (s : CacheState) (b : bytes) :
  debug c = false ->
  safe_join (get_path dirname) filename = Some filepath ->
  filepath <> "" ->
  is_fresh c now (cache_key dirname filename) s = false ->
  fs filepath = Content b ->
  get_cached_file safe_join get_path c fs now dirname filename s
  = Return (Some b)
      {| _cache := Dict.set (cache_key dirname filename) (now, b) (_cache s);
         opened := opened s ++ [filepath] |}.
Proof.
  intros Hdebug Hjoin Hpath Hstale Hread. unfold get_cached_file.
  rewrite Hjoin. destruct filepath as [| a p]; [contradiction |].
  rewrite Hdebug. unfold is_fresh in Hstale.
  destruct (Dict.get (cache_key dirname filename) (_cache s)) as [[t0 b0] |].
  - rewrite Hstale. unfold open_read. rewrite Hread. reflexivity.
  - unfold open_read. rewrite Hread. reflexivity.
Qed.

(** C5: outside debug mode, for a name whose path resolves: a cached entry
    with [now - inserted_at < cache_age] is returned unchanged without
    opening the file; otherwise the file is read, stored with the current
    clock reading, and returned.  So a get on a missing or stale entry
    followed by a get within the TTL opens the file exactly once, and a get
    after the TTL has elapsed opens it a second time and replaces the
    cached bytes. *)
Theorem get_cached_file_ttl (c : ConfigModel) (dirname filename filepath : string) :
  debug c = false ->
  safe_join (get_path dirname) filename = Some filepath ->
  filepath <> "" ->
  let key := cache_key dirname filename in
  let get := get_cached_file safe_join get_path c in
  (forall fs now s t0 b,
      Dict.get key (_cache s) = Some (t0, b) ->
      PrimFloat.ltb (PrimFloat.sub now t0) (cache_age c) = true ->
      get fs now dirname filename s = Return (Some b) s)
  /\ (forall fs now s b,
         is_fresh c now key s = false ->
         fs filepath = Content b ->
         get fs now dirname filename s
         = Return (Some b)
             {| _cache := Dict.set key (now, b) (_cache s);
                opened := opened s ++ [filepath] |})
  /\ (forall fs1 fs2 fs3 t1 t2 t3 s b1 b3,
         is_fresh c t1 key s = false ->
         fs1 filepath = Content b1 ->
         PrimFloat.ltb (PrimFloat.sub t2 t1) (cache_age c) = true ->
         PrimFloat.ltb (PrimFloat.sub t3 t1) (cache_age c) = false ->
         fs3 filepath = Content b3 ->
         exists s1 s3,
           get fs1 t1 dirname filename s = Return (Some b1) s1
           /\ get fs2 t2 dirname filename s1 = Return (Some b1) s1
           /\ opened s1 = opened s ++ [filepath]
           /\ get fs3 t3 dirname filename s1 = Return (Some b3) s3
           /\ opened s3 = opened s ++ [filepath; filepath]
           /\ Dict.get key (_cache s3) = Some (t3, b3)).
Proof.
  intros Hdebug Hjoin Hpath key get. split; [| split].
  - intros fs now s t0 b Hget Hfresh.
    exact (get_cached_file_hit c fs now _ _ _ s t0 b Hdebug Hjoin Hpath Hget Hfresh).
  - intros fs now s b Hstale Hread.
    exact (get_cached_file_miss c fs now _ _ _ s b Hdebug Hjoin Hpath Hstale Hread).
  - intros fs1 fs2 fs3 t1 t2 t3 s b1 b3 Hstale Hread1 Hin Hout Hread3.
    eexists. eexists.
    split; [exact (get_cached_file_miss c fs1 t1 _ _ _ s b1 Hdebug Hjoin Hpath
                     Hstale Hread1) |].
    split.
    { apply (get_cached_file_hit c fs2 t2 _ _ filepath _ t1 b1 Hdebug Hjoin Hpath).
      - simpl. apply get_set_same.
      - exact Hin. }
    split; [reflexivity |].
    split.
    { apply (get_cached_file_miss c fs3 t3 _ _ filepath _ b3 Hdebug Hjoin Hpath).
      - unfold is_fresh. simpl. fold key. rewrite get_set_same. exact Hout.
      - exact Hread3. }
    split.
    + simpl. rewrite <- app_assoc. reflexivity.
    + simpl. apply get_set_same.
Qed.

End FileCacheProperties.

Lemma get_cached_file_ttl_witness :
  let get := get_cached_file sample_join sample_path sample_config in
  exists s1 s3,
    get (sample_disk [x68; x69]) 100%float "static" "index.html" empty_cache
    = Return (Some [x68; x69]) s1
    /\ get (sample_disk [x68; x69]) 130%float "static" "index.html" s1
       = Return (Some [x68; x69]) s1
    /\ opened s1 = ["/srv/static/index.html"]
    /\ get (sample_disk [x79; x6f]) 170%float "static" "index.html" s1
       = Return (Some [x79; x6f]) s3
    /\ opened s3 = ["/srv/static/index.html"; "/srv/static/index.html"]
    /\ Dict.get (cache_key "static" "index.html") (_cache s3)
       = Some (170%float, [x79; x6f]).
Proof.
  intros get.
  pose proof (get_cached_file_ttl sample_join sample_path sample_config
                "static" "index.html" "/srv/static/index.html"
                eq_refl eq_refl ltac:(discriminate)) as [_ [_ Hseq]].
  exact (Hseq (sample_disk [x68; x69]) (sample_disk [x68; x69])
              (sample_disk [x79; x6f]) 100%float 130%float 170%float
              empty_cache [x68; x69] [x79; x6f]
              eq_refl eq_refl eq_refl eq_refl eq_refl).
Defined.

(** In debug mode every get opens the file and nothing is cached. *)
Example get_cached_file_debug :
  get_cached_file sample_join sample_path plain_config (sample_disk [x68; x69])
                  100%float "static" "index.html" empty_cache
  = Return (Some [x68; x69])
      {| _cache := Dict.empty; opened := ["/srv/static/index.html"] |}.
Proof. reflexivity. Qed.

(** A name that escapes the directory is "not found" without any read. *)
Example get_cached_file_unsafe :
  get_cached_file sample_join sample_path sample_config (sample_disk [])
                  100%float "static" "../secret" empty_cache
  = Return None empty_cache.
Proof. reflexivity. Qed.

(** *** Missing files, directories and undecodable content *)

(** The handler of [get_cached_file] names [FileNotFoundError] only. *)
Lemma handled_is_file_not_found :
  handled = FileNotFoundError
  /\ isinstance FileNotFoundError handled = true
  /\ isinstance IsADirectoryError handled = false.
Proof. repeat split. Qed.

(** X18: A missing file is "not found", in either mode, whatever the cache
    holds for a stale or absent entry. *)
Lemma get_cached_file_missing
    (safe_join : string -> string -> option string) (get_path : string -> string)
    (c : ConfigModel) (fs : filesystem) (now : float)
    (dirname filename filepath : string) (s : CacheState) :
  safe_join (get_path dirname) filename = Some filepath ->
  filepath <> "" ->
  (debug c = true \/ is_fresh c now (cache_key dirname filename) s = false) ->
  fs filepath = OpenError FileNotFoundError ->
  get_cached_file safe_join get_path c fs now dirname filename s
  = Return None {| _cache := _cache s; opened := opened s ++ [filepath] |}.
Proof.
  intros Hjoin Hpath Hmode Hread. unfold get_cached_file.
  rewrite Hjoin. destruct filepath as [| a p]; [contradiction |].
  unfold is_fresh in Hmode.
  destruct (debug c).
  - unfold open_read. rewrite Hread. reflexivity.
  - destruct Hmode as [Hmode | Hmode]; [discriminate |].
    destruct (Dict.get (cache_key dirname filename) (_cache s)) as [[t0 b0] |];
      [rewrite Hmode |]; unfold open_read; rewrite Hread; reflexivity.
Qed.

(** A path that is a directory is not "not found": the error leaves
    [get_cached_file], and [get_cached_text] with it. *)
Lemma get_cached_file_directory
    (safe_join : string -> string -> option string) (get_path : string -> string)
    (c : ConfigModel) (fs : filesystem) (now : float)
    (dirname filename filepath : string) (s : CacheState) :
  safe_join (get_path dirname) filename = Some filepath ->
  filepath <> "" ->
  (debug c = true \/ is_fresh c now (cache_key dirname filename) s = false) ->
  fs filepath = OpenError IsADirectoryError ->
  get_cached_file safe_join get_path c fs now dirname filename s
  = Raise IsADirectoryError
      {| _cache := _cache s; opened := opened s ++ [filepath] |}.
Proof.
  intros Hjoin Hpath Hmode Hread. unfold get_cached_file.
  rewrite Hjoin. destruct filepath as [| a p]; [contradiction |].
  unfold is_fresh in Hmode.
  destruct (debug c).
  - unfold open_read. rewrite Hread. reflexivity.
  - destruct Hmode as [Hmode | Hmode]; [discriminate |].
    destruct (Dict.get (cache_key dirname filename) (_cache s)) as [[t0 b0] |];
      [rewrite Hmode |]; unfold open_read; rewrite Hread; reflexivity.
Qed.

(** Content that is not UTF-8 is "not found" for the text variant. *)
Lemma get_cached_text_undecodable
    (safe_join : string -> string -> option string) (get_path : string -> string)
    (c : ConfigModel) (fs : filesystem) (now : float)
    (dirname filename : string) (s s' : CacheState) (raw : bytes) :
  get_cached_file safe_join get_path c fs now dirname filename s
  = Return (Some raw) s' ->
  decode raw = None ->
  get_cached_text safe_join get_path c fs now dirname filename s
  = Return None s'.
Proof.
  intros Hfile Hdecode. unfold get_cached_text. rewrite Hfile, Hdecode.
  reflexivity.
Qed.

Example decode_samples :
  decode [x68; x69] = Some [104; 105]%N
  /\ decode [xe6; x9c; xaa] = Some [26410%N]
  /\ decode [xf0; x9f; x98; x80] = Some [128512%N]
  /\ decode [xff; xfe] = None
  /\ decode [xc0; x80] = None
  /\ decode [xed; xa0; x80] = None
  /\ decode [xe6; x9c] = None.
Proof. repeat split. Qed.

Example get_cached_text_samples :
  get_cached_text sample_join sample_path sample_config (sample_disk [x68; x69])
                  100%float "static" "index.html" empty_cache
  = Return (Some [104; 105]%N)
      {| _cache := [(cache_key "static" "index.html", (100%float, [x68; x69]))];
         opened := ["/srv/static/index.html"] |}
  /\ get_cached_text sample_join sample_path sample_config (sample_disk [])
                     100%float "static" "logo.bin" empty_cache
     = Return None
         {| _cache := [(cache_key "static" "logo.bin", (100%float, [xff; xfe]))];
            opened := ["/srv/static/logo.bin"] |}
  /\ get_cached_text sample_join sample_path sample_config (sample_disk [])
                     100%float "static" "nothing.txt" empty_cache
     = Return None {| _cache := []; opened := ["/srv/static/nothing.txt"] |}.
Proof. repeat split. Qed.

(** C7, at a directory: with [/srv/static/img] a directory,
    [get_cached_file] (cache on or off) and [get_cached_text] raise
    [IsADirectoryError] instead of returning "not found". *)
Theorem get_cached_file_directory_raises :
  get_cached_file sample_join sample_path sample_config (sample_disk [])
                  100%float "static" "img" empty_cache
  = Raise IsADirectoryError
      {| _cache := Dict.empty; opened := ["/srv/static/img"] |}
  /\ get_cached_file sample_join sample_path plain_config (sample_disk [])
                     100%float "static" "img" empty_cache
     = Raise IsADirectoryError
         {| _cache := Dict.empty; opened := ["/srv/static/img"] |}
  /\ get_cached_text sample_join sample_path sample_config (sample_disk [])
                     100%float "static" "img" empty_cache
     = Raise IsADirectoryError
         {| _cache := Dict.empty; opened := ["/srv/static/img"] |}.
Proof.
  split; [| split].
  - exact (get_cached_file_directory sample_join sample_path sample_config
             (sample_disk []) 100%float "static" "img" "/srv/static/img"
             empty_cache eq_refl ltac:(discriminate) (or_intror eq_refl) eq_refl).
  - exact (get_cached_file_directory sample_join sample_path plain_config
             (sample_disk []) 100%float "static" "img" "/srv/static/img"
             empty_cache eq_refl ltac:(discriminate) (or_introl eq_refl) eq_refl).
  - unfold get_cached_text.
    rewrite (get_cached_file_directory sample_join sample_path sample_config
               (sample_disk []) 100%float "static" "img" "/srv/static/img"
               empty_cache eq_refl ltac:(discriminate) (or_intror eq_refl) eq_refl).
    reflexivity.
Qed.

Example period_keys :
  let now := {| dt_year := 2024; dt_month := 3; dt_day := 15; dt_week := 11 |} in
  today_key now = "2024-3-15" /\ week_key now = "2024-11"
  /\ month_key now = "2024-3" /\ year_key now = "2024".
Proof. repeat split. Qed.

(* ================================================================== *)
(** * Further properties *)
(* ================================================================== *)

(** ** Device registry: the key, frames and removal *)

Lemma device_get_none (i : string) (db : Database) :
  device_get i db = None <-> ~ In i (map dev_id (device_status db)).
Proof.
  unfold device_get. induction (device_status db) as [| d r IH]; simpl.
  - split; [intros _ [] | reflexivity].
  - destruct (String.eqb_spec (dev_id d) i) as [Heq | Hne].
    + split; [discriminate | intros H; exfalso; apply H; left; exact Heq].
    + rewrite IH. split.
      * intros H [Hd | Hin]; [exact (Hne Hd) | exact (H Hin)].
      * intros H Hin. apply H. right. exact Hin.
Qed.

Lemma replace_first_ids (i : string) (d' : DeviceStatusData)
    (rows : list DeviceStatusData) :
  dev_id d' = i ->
  map dev_id (replace_first i d' rows) = map dev_id rows.
Proof.
  intros Hid. induction rows as [| d r IH]; simpl; [reflexivity |].
  destruct (String.eqb_spec (dev_id d) i) as [Heq | Hne]; simpl.
  - rewrite Hid, Heq. reflexivity.
  - rewrite IH. reflexivity.
Qed.

Lemma remove_first_incl (i j : string) (rows : list DeviceStatusData) :
  In j (map dev_id (remove_first i rows)) -> In j (map dev_id rows).
Proof.
  induction rows as [| d r IH]; simpl; [intros [] |].
  destruct (String.eqb (dev_id d) i); simpl.
  - intros H. right. exact H.
  - intros [H | H]; [left; exact H | right; apply IH; exact H].
Qed.

Lemma remove_first_unique (i : string) (rows : list DeviceStatusData) :
  NoDup (map dev_id rows) ->
  NoDup (map dev_id (remove_first i rows))
  /\ ~ In i (map dev_id (remove_first i rows)).
Proof.
  induction rows as [| d r IH]; simpl; intros Hnd.
  - split; [constructor | intros []].
  - inversion Hnd as [| ? ? Hnotin Hnd']. subst.
    destruct (String.eqb_spec (dev_id d) i) as [Heq | Hne]; simpl.
    + subst i. split; assumption.
    + destruct (IH Hnd') as [IH1 IH2]. split.
      * constructor; [| exact IH1].
        intros Hin. apply Hnotin. exact (remove_first_incl _ _ _ Hin).
      * intros [H | H]; [exact (Hne H) | exact (IH2 H)].
Qed.

Lemma remove_first_absent (i : string) (rows : list DeviceStatusData) :
  ~ In i (map dev_id rows) -> remove_first i rows = rows.
Proof.
  induction rows as [| d r IH]; simpl; intros Hnot; [reflexivity |].
  destruct (String.eqb_spec (dev_id d) i) as [Heq | Hne].
  - exfalso. apply Hnot. left. exact Heq.
  - rewrite IH; [reflexivity |]. intros H. apply Hnot. right. exact H.
Qed.

Lemma remove_first_other (i j : string) (rows : list DeviceStatusData) :
  j <> i ->
  find (fun d => String.eqb (dev_id d) j) (remove_first i rows)
  = find (fun d => String.eqb (dev_id d) j) rows.
Proof.
  intros Hne. induction rows as [| d r IH]; simpl; [reflexivity |].
  destruct (String.eqb_spec (dev_id d) i) as [Hi | Hi]; simpl.
  - destruct (String.eqb_spec (dev_id d) j) as [Hj | Hj]; [| reflexivity].
    exfalso. apply Hne. rewrite <- Hj, Hi. reflexivity.
  - rewrite IH. reflexivity.
Qed.

Lemma replace_first_other (i j : string) (d' : DeviceStatusData)
    (rows : list DeviceStatusData) :
  j <> i -> dev_id d' = i ->
  find (fun d => String.eqb (dev_id d) j) (replace_first i d' rows)
  = find (fun d => String.eqb (dev_id d) j) rows.
Proof.
  intros Hne Hid. induction rows as [| d r IH]; simpl; [reflexivity |].
  destruct (String.eqb_spec (dev_id d) i) as [Hi | Hi]; simpl.
  - destruct (String.eqb_spec (dev_id d') j) as [Hj | Hj];
      [exfalso; apply Hne; rewrite <- Hj, Hid; reflexivity |].
    destruct (String.eqb_spec (dev_id d) j) as [Hj' | Hj'];
      [exfalso; apply Hne; rewrite <- Hj', Hi; reflexivity | reflexivity].
  - rewrite IH. reflexivity.
Qed.

Lemma find_app_other (j : string) (d' : DeviceStatusData)
    (rows : list DeviceStatusData) :
  dev_id d' <> j ->
  find (fun d => String.eqb (dev_id d) j) (rows ++ [d'])
  = find (fun d => String.eqb (dev_id d) j) rows.
Proof.
  intros Hne. induction rows as [| d r IH]; simpl.
  - destruct (String.eqb_spec (dev_id d') j); [contradiction | reflexivity].
  - rewrite IH. reflexivity.
Qed.

Lemma device_set_unique (id show_name : option string) (using_ : option bool)
    (status : option string) (fields : Dict.t value) (now : float)
    (db db' : Database) :
  unique_ids db ->
  device_set id show_name using_ status fields now db = Return tt db' ->
  unique_ids db'.
Proof.
  unfold unique_ids, device_set. intros Hu.
  destruct id as [[| a i] |]; try discriminate.
  destruct (device_get (String a i) db) as [d |] eqn:Hget.
  - intros H. injection H as <-. simpl.
    rewrite replace_first_ids; [exact Hu |].
    simpl. exact (device_get_id _ _ _ Hget).
  - destruct (truthy_opt show_name); [| discriminate].
    intros H. injection H as <-. simpl.
    rewrite map_app. simpl.
    apply device_get_none in Hget.
    apply NoDup_app; [exact Hu | constructor; [intros [] | constructor] |].
    intros x Hx [Hx' | []]. subst x. exact (Hget Hx).
Qed.

(** X1: No sequence of [device_set], [device_remove] and [device_clear] calls
    gives two rows one id. *)
Theorem registry_keeps_ids_unique (ops : list registry_op) (db : Database) :
  unique_ids db ->
  unique_ids (fold_left run_registry_op ops db).
Proof.
  revert db. induction ops as [| op ops IH]; intros db Hu; simpl; [exact Hu |].
  apply IH. destruct op as [id sn us st fs now | id now | now]; simpl.
  - destruct (device_set id sn us st fs now db) as [[] db' | e db'] eqn:Hset.
    + exact (device_set_unique _ _ _ _ _ _ _ _ Hu Hset).
    + unfold device_set in Hset.
      destruct id as [[| a i] |]; try (injection Hset as _ <-; exact Hu).
      destruct (device_get (String a i) db); [discriminate |].
      destruct (truthy_opt sn); [discriminate |].
      injection Hset as _ <-. exact Hu.
  - unfold device_remove. destruct (device_get id db); [| exact Hu].
    unfold unique_ids. simpl. apply remove_first_unique. exact Hu.
  - unfold unique_ids. simpl. constructor.
Qed.

Lemma registry_keeps_ids_unique_witness :
  unique_ids
    (fold_left run_registry_op
       [ Device_set (Some "phone") None (Some true) None [] 1%float;
         Device_set (Some "tablet") (Some "Tablet") None None [] 2%float;
         Device_set (Some "tablet") None None (Some "reading") [] 3%float;
         Device_remove "laptop" 4%float;
         Device_set None (Some "x") None None [] 5%float ]
       (sample_db false)).
Proof.
  apply registry_keeps_ids_unique.
  unfold unique_ids. simpl.
  constructor; [intros [H | []]; discriminate H |].
  constructor; [intros [] | constructor].
Defined.

(** X2: An accepted [device_set] on one id leaves every other device, the
    status, the private-mode flag and the metrics tables as they were, and
    adds at most one row. *)
Theorem device_set_frame (i j : string) (show_name : option string)
    (using_ : option bool) (status : option string) (fields : Dict.t value)
    (now : float) (db db' : Database) :
  device_set (Some i) show_name using_ status fields now db = Return tt db' ->
  j <> i ->
  device_get j db' = device_get j db
  /\ status_id db' = status_id db
  /\ private_mode db' = private_mode db
  /\ metrics db' = metrics db
  /\ metrics_meta db' = metrics_meta db
  /\ (List.length (device_status db') <= S (List.length (device_status db)))%nat.
Proof.
  unfold device_set. intros Hset Hne.
  destruct i as [| a i]; [discriminate |].
  destruct (device_get (String a i) db) as [d |] eqn:Hget.
  - injection Hset as <-. unfold device_get. simpl.
    repeat split.
    + apply replace_first_other; [exact Hne |].
      simpl. exact (device_get_id _ _ _ Hget).
    + assert (Hlen : List.length (map dev_id
                       (replace_first (String a i)
                          (assign d show_name using_ status fields)
                          (device_status db)))
                     = List.length (map dev_id (device_status db))).
      { rewrite replace_first_ids; [reflexivity |].
        simpl. exact (device_get_id _ _ _ Hget). }
      rewrite !length_map in Hlen. lia.
  - destruct (truthy_opt show_name); [| discriminate].
    injection Hset as <-. unfold device_get. simpl.
    repeat split.
    + apply find_app_other. simpl. intros H. apply Hne. symmetry. exact H.
    + rewrite length_app. simpl. lia.
Qed.

Lemma device_set_frame_witness :
  exists db',
    device_set (Some "phone") None (Some true) (Some "call") [] 9%float
               (sample_db false) = Return tt db'
    /\ device_get "laptop" db' = Some laptop
    /\ metrics db' = metrics (sample_db false).
Proof.
  eexists. split; [reflexivity |].
  destruct (device_set_frame "phone" "laptop" None (Some true) (Some "call") []
              9%float (sample_db false) _ eq_refl ltac:(discriminate))
    as [Hget [_ [_ [Hm _]]]].
  split; [exact Hget | exact Hm].
Defined.

(** X3: [device_remove]: with the id absent the store is untouched, its
    [last_updated] included; with the id present the device is gone, every
    other device stays, and [last_updated] is the clock reading.  A second
    removal is therefore a no-op. *)
Theorem device_remove_spec (i : string) (now now' : float) (db : Database) :
  unique_ids db ->
  (device_get i db = None -> device_remove i now db = db)
  /\ device_get i (device_remove i now db) = None
  /\ (forall j, j <> i ->
                device_get j (device_remove i now db) = device_get j db)
  /\ (device_get i db <> None -> last_updated (device_remove i now db) = now)
  /\ device_remove i now' (device_remove i now db) = device_remove i now db.
Proof.
  intros Hu.
  assert (Hgone : device_get i (device_remove i now db) = None).
  { unfold device_remove. destruct (device_get i db) eqn:Hget; [| exact Hget].
    apply device_get_none. simpl. apply remove_first_unique. exact Hu. }
  split; [| split; [exact Hgone | split; [| split]]].
  - intros Hnone. unfold device_remove. rewrite Hnone. reflexivity.
  - intros j Hne. unfold device_remove.
    destruct (device_get i db); [| reflexivity].
    unfold device_get. simpl. apply remove_first_other. exact Hne.
  - intros Hsome. unfold device_remove.
    destruct (device_get i db); [reflexivity | contradiction].
  - unfold device_remove at 1. rewrite Hgone. reflexivity.
Qed.

Lemma device_remove_spec_witness :
  device_get "phone" (device_remove "phone" 8%float (sample_db false)) = None
  /\ device_get "laptop" (device_remove "phone" 8%float (sample_db false))
     = Some laptop
  /\ device_remove "tablet" 8%float (sample_db false) = sample_db false.
Proof.
  assert (Hu : unique_ids (sample_db false)).
  { unfold unique_ids. simpl.
    constructor; [intros [H | []]; discriminate H |].
    constructor; [intros [] | constructor]. }
  destruct (device_remove_spec "phone" 8%float 8%float (sample_db false) Hu)
    as [_ [Hgone [Hother _]]].
  destruct (device_remove_spec "tablet" 8%float 8%float (sample_db false) Hu)
    as [Habsent _].
  split; [exact Hgone |]. split.
  - rewrite Hother; [reflexivity | discriminate].
  - apply Habsent. reflexivity.
Defined.

Lemma remove_first_app_new (i : string) (d' : DeviceStatusData)
    (rows : list DeviceStatusData) :
  dev_id d' = i ->
  ~ In i (map dev_id rows) ->
  remove_first i (rows ++ [d']) = rows.
Proof.
  intros Hid. induction rows as [| d r IH]; simpl; intros Hnot.
  - rewrite Hid, String.eqb_refl. reflexivity.
  - destruct (String.eqb_spec (dev_id d) i) as [Heq | Hne].
    + exfalso. apply Hnot. left. exact Heq.
    + rewrite IH; [reflexivity |]. intros H. apply Hnot. right. exact H.
Qed.

(** X4: Creating a device and removing it again gives back the device table
    as it was, row for row. *)
Theorem device_set_then_remove (i : string) (show_name : option string)
    (using_ : option bool) (status : option string) (fields : Dict.t value)
    (now now' : float) (db db' : Database) :
  device_get i db = None ->
  device_set (Some i) show_name using_ status fields now db = Return tt db' ->
  device_status (device_remove i now' db') = device_status db.
Proof.
  intros Hnone Hset.
  pose proof (device_set_returns _ _ _ _ _ _ _ _ Hset) as [Hget' _].
  unfold device_remove. rewrite Hget'. simpl.
  unfold device_set in Hset. destruct i as [| a i]; [discriminate |].
  rewrite Hnone in Hset.
  destruct (truthy_opt show_name); [| discriminate].
  injection Hset as <-. simpl.
  apply remove_first_app_new; [reflexivity |].
  apply device_get_none. exact Hnone.
Qed.

Lemma device_set_then_remove_witness :
  exists db',
    device_set (Some "tablet") (Some "Tablet") None None
               [("os", VStr "android")] 3%float (sample_db false) = Return tt db'
    /\ device_status (device_remove "tablet" 4%float db') = [phone; laptop].
Proof.
  eexists. split; [reflexivity |].
  exact (device_set_then_remove "tablet" (Some "Tablet") None None
           [("os", VStr "android")] 3%float 4%float (sample_db false) _
           eq_refl eq_refl).
Defined.

(** X5: After [device_clear] no device is found, the view is empty under every
    policy, and a [device_set] that gives no show_name is refused for every
    id, as for a new device. *)
Theorem device_clear_spec (c : ConfigModel) (now now' : float) (db : Database)
    (id : option string) (using_ : option bool) (status : option string)
    (fields : Dict.t value) :
  (forall j, device_get j (device_clear now db) = None)
  /\ device_list c (device_clear now db) = Dict.empty
  /\ last_updated (device_clear now db) = now
  /\ exists e, device_set id None using_ status fields now' (device_clear now db)
               = Raise e (device_clear now db)
               /\ is_validation_error e = true.
Proof.
  split; [intros j; reflexivity |].
  split.
  - unfold device_list, _raw_device_list_dict, _raw_device_list.
    change (device_status (device_clear now db)) with (@nil DeviceStatusData).
    destruct (private_mode (device_clear now db)); [reflexivity |].
    destruct (using_first c), (sorted c), (not_using c) as [[| a s] |];
      reflexivity.
  - split; [reflexivity |].
    destruct id as [[| a i] |]; eexists; split; reflexivity.
Qed.

(** ** Device registry: the view *)

Lemma set_new {V : Type} (k : string) (v : V) (d : Dict.t V) :
  ~ In k (Dict.keys d) -> Dict.set k v d = d ++ [(k, v)].
Proof.
  induction d as [| [k' v'] r IH]; simpl; intros Hnot; [reflexivity |].
  destruct (String.eqb_spec k k') as [-> | Hne].
  - exfalso. apply Hnot. left. reflexivity.
  - rewrite IH; [reflexivity |]. intros H. apply Hnot. right. exact H.
Qed.

Lemma update_disjoint {V : Type} (e : Dict.t V) :
  forall d : Dict.t V,
    NoDup (Dict.keys (d ++ e)) -> Dict.update d e = d ++ e.
Proof.
  unfold Dict.update.
  induction e as [| [k v] e IH]; intros d Hnd; simpl.
  - rewrite app_nil_r. reflexivity.
  - assert (Hnew : ~ In k (Dict.keys d)).
    { unfold Dict.keys in *. rewrite map_app in Hnd. simpl in Hnd.
      apply NoDup_remove_2 in Hnd. intros H. apply Hnd.
      apply in_or_app. left. exact H. }
    rewrite (set_new _ _ _ Hnew), IH.
    + rewrite <- app_assoc. reflexivity.
    + rewrite <- app_assoc. exact Hnd.
Qed.

Lemma insert_sorted_perm {V : Type} (kv : string * V) (d : Dict.t V) :
  Permutation (Dict.insert_sorted kv d) (kv :: d).
Proof.
  induction d as [| kv' r IH]; simpl; [apply Permutation_refl |].
  destruct (String.leb (fst kv) (fst kv')); [apply Permutation_refl |].
  apply perm_trans with (kv' :: kv :: r);
    [apply perm_skip; exact IH | apply perm_swap].
Qed.

Lemma sorted_items_perm {V : Type} (d : Dict.t V) :
  Permutation (Dict.sorted_items d) d.
Proof.
  unfold Dict.sorted_items. induction d as [| kv r IH]; simpl;
    [apply Permutation_refl |].
  apply perm_trans with (kv :: fold_right Dict.insert_sorted [] r);
    [apply insert_sorted_perm | apply perm_skip; exact IH].
Qed.

Lemma insert_sorted_sorted {V : Type} (kv : string * V) (d : Dict.t V) :
  Sorted key_le d -> Sorted key_le (Dict.insert_sorted kv d).
Proof.
  induction d as [| kv' r IH]; simpl; intros Hs.
  - constructor; constructor.
  - destruct (String.leb (fst kv) (fst kv')) eqn:Hle.
    + constructor; [exact Hs | constructor; exact Hle].
    + inversion Hs as [| ? ? Hr Hhd]. subst.
      constructor; [apply IH; exact Hr |].
      assert (Hge : key_le kv' kv).
      { unfold key_le. destruct (String.leb_total (fst kv) (fst kv')) as [H | H];
          [rewrite H in Hle; discriminate | exact H]. }
      destruct r as [| kv'' r']; simpl.
      * constructor. exact Hge.
      * destruct (String.leb (fst kv) (fst kv''));
          constructor; [exact Hge |].
        inversion Hhd. assumption.
Qed.

Lemma sorted_items_sorted {V : Type} (d : Dict.t V) :
  Sorted key_le (Dict.sorted_items d).
Proof.
  unfold Dict.sorted_items. induction d as [| kv r IH]; simpl;
    [constructor | apply insert_sorted_sorted; exact IH].
Qed.

(** With distinct ids the dict comprehension is the table, keyed by id, in
    store order. *)
Lemma fold_set_rows (rows : list DeviceStatusData) :
  forall acc : Dict.t DeviceStatusData,
    NoDup (Dict.keys acc ++ map dev_id rows) ->
    fold_left (fun acc d => Dict.set (dev_id d) d acc) rows acc
    = acc ++ map (fun d => (dev_id d, d)) rows.
Proof.
  induction rows as [| d r IH]; intros acc Hnd; simpl.
  - rewrite app_nil_r. reflexivity.
  - assert (Hnew : ~ In (dev_id d) (Dict.keys acc)).
    { simpl in Hnd. apply NoDup_remove_2 in Hnd. intros H. apply Hnd.
      apply in_or_app. left. exact H. }
    rewrite (set_new _ _ _ Hnew), IH.
    + rewrite <- app_assoc. reflexivity.
    + unfold Dict.keys. rewrite map_app. simpl. rewrite <- app_assoc. exact Hnd.
Qed.

Lemma raw_device_list_dict_items (db : Database) :
  private_mode db = false ->
  unique_ids db ->
  _raw_device_list_dict db = items_of db.
Proof.
  intros Hp Hu. unfold _raw_device_list_dict, _raw_device_list, items_of.
  rewrite Hp, (fold_set_rows _ Dict.empty Hu). simpl.
  rewrite map_map. reflexivity.
Qed.

(** X6: Outside private mode the raw list and [device_get] agree on every id. *)
Theorem raw_device_list_lookup (i : string) (db : Database) :
  private_mode db = false ->
  unique_ids db ->
  Dict.get i (_raw_device_list db) = device_get i db.
Proof.
  intros Hp Hu. unfold _raw_device_list, device_get.
  rewrite Hp, (fold_set_rows _ Dict.empty Hu). simpl.
  induction (device_status db) as [| d r IH]; simpl; [reflexivity |].
  rewrite String.eqb_sym.
  destruct (String.eqb (dev_id d) i); [reflexivity | exact IH].
Qed.

Lemma sample_db_unique (private : bool) : unique_ids (sample_db private).
Proof.
  unfold unique_ids. simpl.
  constructor; [intros [H | []]; discriminate H |].
  constructor; [intros [] | constructor].
Qed.

Lemma raw_device_list_lookup_witness :
  Dict.get "laptop" (_raw_device_list (sample_db false)) = Some laptop
  /\ Dict.get "tablet" (_raw_device_list (sample_db false)) = None.
Proof.
  split.
  - rewrite (raw_device_list_lookup "laptop" (sample_db false) eq_refl
               (sample_db_unique false)).
    reflexivity.
  - rewrite (raw_device_list_lookup "tablet" (sample_db false) eq_refl
               (sample_db_unique false)).
    reflexivity.
Defined.

Lemma keys_app {V : Type} (d e : Dict.t V) :
  Dict.keys (d ++ e) = Dict.keys d ++ Dict.keys e.
Proof. unfold Dict.keys. apply map_app. Qed.

(** The loop over the items fills the three groups in item order. *)
Lemma partition_groups (c : ConfigModel) (items : Dict.t (Dict.t value)) :
  forall a1 a2 a3 : Dict.t (Dict.t value),
    (forall k, In k (Dict.keys items) ->
               ~ In k (Dict.keys a1) /\ ~ In k (Dict.keys a2)
               /\ ~ In k (Dict.keys a3)) ->
    NoDup (Dict.keys items) ->
    fold_left (partition_step c) items (a1, a2, a3)
    = (a1 ++ filter is_using items,
       a2 ++ map (shown c) (filter is_not_using items),
       a3 ++ filter is_unknown items).
Proof.
  induction items as [| [k v] items IH]; intros a1 a2 a3 Hfresh Hnd.
  - simpl. rewrite !app_nil_r. reflexivity.
  - inversion Hnd as [| ? ? Hk Hnd']. subst.
    destruct (Hfresh k (or_introl eq_refl)) as [H1 [H2 H3]].
    assert (Hrest : forall (b1 b2 b3 : Dict.t (Dict.t value)),
               (forall k', In k' (Dict.keys b1) -> In k' (Dict.keys a1) \/ k' = k) ->
               (forall k', In k' (Dict.keys b2) -> In k' (Dict.keys a2) \/ k' = k) ->
               (forall k', In k' (Dict.keys b3) -> In k' (Dict.keys a3) \/ k' = k) ->
               forall k', In k' (Dict.keys items) ->
                          ~ In k' (Dict.keys b1) /\ ~ In k' (Dict.keys b2)
                          /\ ~ In k' (Dict.keys b3)).
    { intros b1 b2 b3 Hb1 Hb2 Hb3 k' Hin.
      destruct (Hfresh k' (or_intror Hin)) as [G1 [G2 G3]].
      assert (Hkk : k' <> k) by (intros ->; exact (Hk Hin)).
      repeat split; intros Hb;
        [destruct (Hb1 _ Hb) | destruct (Hb2 _ Hb) | destruct (Hb3 _ Hb)];
        contradiction. }
    assert (Hsnoc : forall (a : Dict.t (Dict.t value)) (w : Dict.t value) k',
               In k' (Dict.keys (a ++ [(k, w)])) -> In k' (Dict.keys a) \/ k' = k).
    { intros a w k' Hin. rewrite keys_app in Hin. apply in_app_or in Hin.
      destruct Hin as [Hin | [Hin | []]]; [left; exact Hin | right; symmetry; exact Hin]. }
    cbn [fold_left filter].
    destruct (eq_bool (Dict.get "using" v) true) eqn:Ht.
    + assert (Hst : partition_step c (a1, a2, a3) (k, v)
                    = (Dict.set k v a1, a2, a3))
        by (unfold partition_step; rewrite Ht; reflexivity).
      assert (Hp1 : is_using (k, v) = true) by exact Ht.
      assert (Hp2 : is_not_using (k, v) = false)
        by (unfold is_not_using; rewrite Hp1; reflexivity).
      assert (Hp3 : is_unknown (k, v) = false)
        by (unfold is_unknown; rewrite Hp1; reflexivity).
      rewrite Hst, Hp1, Hp2, Hp3, (set_new _ _ _ H1), IH; [| | exact Hnd'].
      * rewrite <- app_assoc. reflexivity.
      * apply Hrest; [apply Hsnoc | |]; intros k' Hin; left; exact Hin.
    + assert (Hp1 : is_using (k, v) = false) by exact Ht.
      destruct (eq_bool (Dict.get "using" v) false) eqn:Hf.
      * assert (Hst : partition_step c (a1, a2, a3) (k, v)
                      = (a1, Dict.set k (lock_status c v) a2, a3))
          by (unfold partition_step; rewrite Ht, Hf; reflexivity).
        assert (Hp2 : is_not_using (k, v) = true)
          by (unfold is_not_using; rewrite Hp1; exact Hf).
        assert (Hp3 : is_unknown (k, v) = false)
          by (unfold is_unknown; rewrite Hp1; simpl; rewrite Hf; reflexivity).
        assert (Hsh : shown c (k, v) = (k, lock_status c v))
          by (unfold shown; simpl; rewrite Hf; reflexivity).
        rewrite Hst, Hp1, Hp2, Hp3, (set_new _ _ _ H2), IH; [| | exact Hnd'].
        -- cbn [map]. rewrite Hsh, <- app_assoc. reflexivity.
        -- apply Hrest; [| apply Hsnoc |]; intros k' Hin; left; exact Hin.
      * assert (Hst : partition_step c (a1, a2, a3) (k, v)
                      = (a1, a2, Dict.set k v a3))
          by (unfold partition_step; rewrite Ht, Hf; reflexivity).
        assert (Hp2 : is_not_using (k, v) = false)
          by (unfold is_not_using; rewrite Hp1; exact Hf).
        assert (Hp3 : is_unknown (k, v) = true)
          by (unfold is_unknown; rewrite Hp1; simpl; rewrite Hf; reflexivity).
        rewrite Hst, Hp1, Hp2, Hp3, (set_new _ _ _ H3), IH; [| | exact Hnd'].
        -- rewrite <- app_assoc. reflexivity.
        -- apply Hrest; [| | apply Hsnoc]; intros k' Hin; left; exact Hin.
Qed.

Lemma eq_bool_exclusive (o : option value) :
  eq_bool o true = true -> eq_bool o false = false.
Proof.
  destruct o as [[| [|] | | | | |] |]; simpl; intros H;
    try discriminate; reflexivity.
Qed.

(** The three groups, one after the other, hold every shown item once. *)
Lemma groups_perm (c : ConfigModel) (items : Dict.t (Dict.t value)) :
  Permutation
    (filter is_using items
     ++ map (shown c) (filter is_not_using items)
     ++ filter is_unknown items)
    (map (shown c) items).
Proof.
  induction items as [| kv items IH]; [apply Permutation_refl |].
  cbn [filter map].
  destruct (eq_bool (Dict.get "using" (snd kv)) true) eqn:Ht.
  - assert (Hp1 : is_using kv = true) by exact Ht.
    assert (Hp2 : is_not_using kv = false)
      by (unfold is_not_using; rewrite Hp1; reflexivity).
    assert (Hp3 : is_unknown kv = false)
      by (unfold is_unknown; rewrite Hp1; reflexivity).
    assert (Hsh : shown c kv = kv)
      by (unfold shown; rewrite (eq_bool_exclusive _ Ht); reflexivity).
    rewrite Hp1, Hp2, Hp3, Hsh. simpl. apply perm_skip. exact IH.
  - assert (Hp1 : is_using kv = false) by exact Ht.
    destruct (eq_bool (Dict.get "using" (snd kv)) false) eqn:Hf.
    + assert (Hp2 : is_not_using kv = true)
        by (unfold is_not_using; rewrite Hp1; exact Hf).
      assert (Hp3 : is_unknown kv = false)
        by (unfold is_unknown; rewrite Hp1; simpl; rewrite Hf; reflexivity).
      rewrite Hp1, Hp2, Hp3. cbn [map].
      apply Permutation_sym, Permutation_cons_app, Permutation_sym. exact IH.
    + assert (Hp2 : is_not_using kv = false)
        by (unfold is_not_using; rewrite Hp1; exact Hf).
      assert (Hp3 : is_unknown kv = true)
        by (unfold is_unknown; rewrite Hp1; simpl; rewrite Hf; reflexivity).
      assert (Hsh : shown c kv = kv)
        by (unfold shown; rewrite Hf; reflexivity).
      rewrite Hp1, Hp2, Hp3, Hsh.
      apply Permutation_sym. rewrite app_assoc.
      apply Permutation_cons_app. rewrite <- app_assoc.
      apply Permutation_sym. exact IH.
Qed.

Lemma shown_key (c : ConfigModel) (kv : string * Dict.t value) :
  fst (shown c kv) = fst kv.
Proof.
  unfold shown. destruct (eq_bool (Dict.get "using" (snd kv)) false); reflexivity.
Qed.

Lemma arranged_perm (c : ConfigModel) (d : Dict.t (Dict.t value)) :
  Permutation (arranged c d) d.
Proof.
  unfold arranged. destruct (sorted c);
    [apply sorted_items_perm | apply Permutation_refl].
Qed.

Lemma shown_row (c : ConfigModel) (d : DeviceStatusData) :
  shown c (dev_id d, to_primitive d) = entry c d.
Proof.
  unfold shown, entry, overridden, lock_status.
  destruct d as [i sn [[|] |] st fs]; simpl;
    destruct (not_using c) as [[| a s] |]; reflexivity.
Qed.

Lemma entry_in_use (c : ConfigModel) (d : DeviceStatusData) :
  has_using (Some false) d = false -> entry c d = (dev_id d, to_primitive d).
Proof.
  unfold entry, overridden, has_using.
  destruct (dev_using d) as [[|] |]; simpl; intros H;
    [reflexivity | discriminate | reflexivity].
Qed.

Lemma filter_items (p : string * Dict.t value -> bool)
    (q : DeviceStatusData -> bool) (rows : list DeviceStatusData) :
  (forall d, p (dev_id d, to_primitive d) = q d) ->
  filter p (map (fun d => (dev_id d, to_primitive d)) rows)
  = map (fun d => (dev_id d, to_primitive d)) (filter q rows).
Proof.
  intros Hpq. induction rows as [| d r IH]; simpl; [reflexivity |].
  rewrite Hpq. destruct (q d); simpl; rewrite IH; reflexivity.
Qed.

Lemma is_using_row (d : DeviceStatusData) :
  is_using (dev_id d, to_primitive d) = has_using (Some true) d.
Proof. destruct d as [i sn [[|] |] st fs]; reflexivity. Qed.

Lemma is_not_using_row (d : DeviceStatusData) :
  is_not_using (dev_id d, to_primitive d) = has_using (Some false) d.
Proof. destruct d as [i sn [[|] |] st fs]; reflexivity. Qed.

Lemma is_unknown_row (d : DeviceStatusData) :
  is_unknown (dev_id d, to_primitive d) = has_using None d.
Proof. destruct d as [i sn [[|] |] st fs]; reflexivity. Qed.

Lemma map_entry_filter (c : ConfigModel) (q : DeviceStatusData -> bool)
    (rows : list DeviceStatusData) :
  (forall d, q d = true -> has_using (Some false) d = false) ->
  map (fun d => (dev_id d, to_primitive d)) (filter q rows)
  = map (entry c) (filter q rows).
Proof.
  intros Hq. apply map_ext_in. intros d Hin.
  apply filter_In in Hin. symmetry. apply entry_in_use, Hq, (proj2 Hin).
Qed.

Lemma shown_items (c : ConfigModel) (rows : list DeviceStatusData) :
  map (shown c) (map (fun d => (dev_id d, to_primitive d)) rows)
  = map (entry c) rows.
Proof. rewrite map_map. apply map_ext. intros d. apply shown_row. Qed.

Lemma keys_entries (c : ConfigModel) (rows : list DeviceStatusData) :
  Dict.keys (map (entry c) rows) = map dev_id rows.
Proof. unfold Dict.keys. rewrite map_map. reflexivity. Qed.

(** The three groups of the rows, as the view arranges them. *)
Lemma groups_rows (c : ConfigModel) (rows : list DeviceStatusData) :
  let items := map (fun d => (dev_id d, to_primitive d)) rows in
  filter is_using items = map (entry c) (filter (has_using (Some true)) rows)
  /\ map (shown c) (filter is_not_using items)
     = map (entry c) (filter (has_using (Some false)) rows)
  /\ filter is_unknown items = map (entry c) (filter (has_using None) rows).
Proof.
  intros items. unfold items. repeat split.
  - rewrite (filter_items _ _ rows is_using_row).
    apply map_entry_filter. intros d. unfold has_using.
    destruct (dev_using d) as [[|] |]; simpl; intros H;
      try discriminate; reflexivity.
  - rewrite (filter_items _ _ rows is_not_using_row). apply shown_items.
  - rewrite (filter_items _ _ rows is_unknown_row).
    apply map_entry_filter. intros d. unfold has_using.
    destruct (dev_using d) as [[|] |]; simpl; intros H;
      try discriminate; reflexivity.
Qed.

Lemma rows_groups_perm (c : ConfigModel) (rows : list DeviceStatusData) :
  Permutation
    (map (entry c) (filter (has_using (Some true)) rows)
     ++ map (entry c) (filter (has_using (Some false)) rows)
     ++ map (entry c) (filter (has_using None) rows))
    (map (entry c) rows).
Proof.
  destruct (groups_rows c rows) as [H1 [H2 H3]].
  rewrite <- H1, <- H2, <- H3, <- shown_items. apply groups_perm.
Qed.

(** The grouped view, as an equation. *)
Lemma device_list_grouped_eq (c : ConfigModel) (db : Database) :
  private_mode db = false ->
  unique_ids db ->
  using_first c = true ->
  device_list c db
  = arranged c (map (entry c) (filter (has_using (Some true)) (device_status db)))
    ++ arranged c (map (entry c) (filter (has_using (Some false)) (device_status db)))
    ++ arranged c (map (entry c) (filter (has_using None) (device_status db))).
Proof.
  intros Hp Hu Hf.
  unfold device_list. rewrite Hp, Hf, (raw_device_list_dict_items db Hp Hu).
  assert (Hitems : NoDup (Dict.keys (items_of db))).
  { unfold items_of, Dict.keys. rewrite map_map. exact Hu. }
  rewrite (partition_groups c (items_of db) Dict.empty Dict.empty Dict.empty);
    [| intros k _; repeat split; intros [] | exact Hitems].
  simpl. unfold items_of.
  destruct (groups_rows c (device_status db)) as [H1 [H2 H3]].
  rewrite H1, H2, H3.
  set (g1 := map (entry c) (filter (has_using (Some true)) (device_status db))).
  set (g2 := map (entry c) (filter (has_using (Some false)) (device_status db))).
  set (g3 := map (entry c) (filter (has_using None) (device_status db))).
  assert (Hnd : NoDup (Dict.keys (arranged c g1 ++ arranged c g2 ++ arranged c g3))).
  { apply (Permutation_NoDup (l := Dict.keys (map (entry c) (device_status db)))).
    - unfold Dict.keys. apply Permutation_map, Permutation_sym.
      apply perm_trans with (g1 ++ g2 ++ g3);
        [repeat apply Permutation_app; apply arranged_perm
        | apply rows_groups_perm].
    - rewrite keys_entries. exact Hu. }
  assert (Hupd : Dict.update (Dict.update (arranged c g1) (arranged c g2))
                             (arranged c g3)
                 = arranged c g1 ++ arranged c g2 ++ arranged c g3).
  { rewrite (update_disjoint _ (arranged c g1)).
    - rewrite update_disjoint; [rewrite <- app_assoc; reflexivity |].
      rewrite <- app_assoc. exact Hnd.
    - rewrite app_assoc in Hnd. rewrite keys_app in Hnd.
      exact (NoDup_app_remove_r _ _ Hnd). }
  unfold arranged in *. destruct (sorted c); exact Hupd.
Qed.

(** The ungrouped view, as an equation. *)
Lemma device_list_plain_eq (c : ConfigModel) (db : Database) :
  private_mode db = false ->
  unique_ids db ->
  using_first c = false ->
  device_list c db = arranged c (map (entry c) (device_status db)).
Proof.
  intros Hp Hu Hf.
  unfold device_list. rewrite Hp, Hf, (raw_device_list_dict_items db Hp Hu).
  assert (Hmap : (if truthy_opt (not_using c)
                  then map (fun kv =>
                              if eq_bool (Dict.get "using" (snd kv)) false
                              then (fst kv, lock_status c (snd kv))
                              else kv) (items_of db)
                  else items_of db)
                 = map (entry c) (device_status db)).
  { unfold items_of. rewrite <- shown_items.
    destruct (truthy_opt (not_using c)) eqn:Ht; [reflexivity |].
    symmetry. rewrite <- (map_id (map _ (device_status db))) at 2.
    apply map_ext. intros [k v]. unfold shown, lock_status. simpl.
    destruct (not_using c) as [[| a s] |]; try discriminate Ht;
      destruct (eq_bool (Dict.get "using" v) false); reflexivity. }
  rewrite Hmap. reflexivity.
Qed.

(** X7: Every device is shown exactly once: outside private mode, whatever the
    policy flags, the view holds, in some order, one entry per row, keyed
    by the device id, the row in primitive form with its status text
    replaced by the override when the device is not in use and an override
    is configured. *)
Theorem device_list_complete (c : ConfigModel) (db : Database) :
  private_mode db = false ->
  unique_ids db ->
  Permutation (device_list c db) (map (entry c) (device_status db))
  /\ NoDup (Dict.keys (device_list c db)).
Proof.
  intros Hp Hu.
  assert (Hperm : Permutation (device_list c db)
                              (map (entry c) (device_status db))).
  { destruct (using_first c) eqn:Hf.
    - rewrite (device_list_grouped_eq c db Hp Hu Hf).
      apply perm_trans with
        (map (entry c) (filter (has_using (Some true)) (device_status db))
         ++ map (entry c) (filter (has_using (Some false)) (device_status db))
         ++ map (entry c) (filter (has_using None) (device_status db)));
        [repeat apply Permutation_app; apply arranged_perm
        | apply rows_groups_perm].
    - rewrite (device_list_plain_eq c db Hp Hu Hf). apply arranged_perm. }
  split; [exact Hperm |].
  apply (Permutation_NoDup (l := Dict.keys (map (entry c) (device_status db)))).
  - unfold Dict.keys. apply Permutation_map, Permutation_sym. exact Hperm.
  - rewrite keys_entries. exact Hu.
Qed.

Lemma device_list_complete_witness :
  Permutation (device_list sample_config (sample_db false))
              [entry sample_config phone; entry sample_config laptop]
  /\ NoDup (Dict.keys (device_list sample_config (sample_db false))).
Proof.
  exact (device_list_complete sample_config (sample_db false) eq_refl
           (sample_db_unique false)).
Defined.

(** X8: With [using_first] the view is three runs: the devices in use, then
    those not in use, then those whose [using] is unknown; each run is in
    store order, or in ascending id order when [sorted] is set. *)
Theorem device_list_grouped (c : ConfigModel) (db : Database) :
  private_mode db = false ->
  unique_ids db ->
  using_first c = true ->
  exists g1 g2 g3,
    device_list c db = g1 ++ g2 ++ g3
    /\ Permutation g1 (map (entry c) (filter (has_using (Some true)) (device_status db)))
    /\ Permutation g2 (map (entry c) (filter (has_using (Some false)) (device_status db)))
    /\ Permutation g3 (map (entry c) (filter (has_using None) (device_status db)))
    /\ (sorted c = true ->
        Sorted key_le g1 /\ Sorted key_le g2 /\ Sorted key_le g3)
    /\ (sorted c = false ->
        g1 = map (entry c) (filter (has_using (Some true)) (device_status db))
        /\ g2 = map (entry c) (filter (has_using (Some false)) (device_status db))
        /\ g3 = map (entry c) (filter (has_using None) (device_status db))).
Proof.
  intros Hp Hu Hf.
  exists (arranged c (map (entry c) (filter (has_using (Some true)) (device_status db)))),
         (arranged c (map (entry c) (filter (has_using (Some false)) (device_status db)))),
         (arranged c (map (entry c) (filter (has_using None) (device_status db)))).
  split; [exact (device_list_grouped_eq c db Hp Hu Hf) |].
  repeat split; try apply arranged_perm;
    unfold arranged; rewrite H; try apply sorted_items_sorted; reflexivity.
Qed.

Lemma device_list_grouped_witness :
  exists g1 g2 g3,
    device_list sample_config (sample_db false) = g1 ++ g2 ++ g3
    /\ Permutation g1 [entry sample_config laptop]
    /\ Permutation g2 [entry sample_config phone]
    /\ Permutation g3 [].
Proof.
  destruct (device_list_grouped sample_config (sample_db false) eq_refl
              (sample_db_unique false) eq_refl)
    as [g1 [g2 [g3 [Heq [H1 [H2 [H3 _]]]]]]].
  exists g1, g2, g3. repeat split; assumption.
Defined.

(** X9: Without [using_first] the view lists the devices in store order, or in
    ascending id order when [sorted] is set; the entries are the same
    either way. *)
Theorem device_list_plain (c : ConfigModel) (db : Database) :
  private_mode db = false ->
  unique_ids db ->
  using_first c = false ->
  (sorted c = false -> device_list c db = map (entry c) (device_status db))
  /\ (sorted c = true ->
      Sorted key_le (device_list c db)
      /\ Permutation (device_list c db) (map (entry c) (device_status db))).
Proof.
  intros Hp Hu Hf. rewrite (device_list_plain_eq c db Hp Hu Hf).
  unfold arranged. split; intros Hs; rewrite Hs.
  - reflexivity.
  - split; [apply sorted_items_sorted | apply sorted_items_perm].
Qed.

Lemma device_list_plain_witness :
  device_list plain_config (sample_db false)
  = [entry plain_config phone; entry plain_config laptop].
Proof.
  exact (proj1 (device_list_plain plain_config (sample_db false) eq_refl
                  (sample_db_unique false) eq_refl) eq_refl).
Defined.

(** ** Metrics engine: the key, frames, composition and the snapshot *)

Lemma metric_get_none (path : string) (db : Database) :
  metric_get path db = None <-> ~ In path (map m_path (metrics db)).
Proof.
  unfold metric_get. induction (metrics db) as [| m r IH]; simpl.
  - split; [intros _ [] | reflexivity].
  - destruct (String.eqb_spec (m_path m) path) as [Heq | Hne].
    + split; [discriminate | intros H; exfalso; apply H; left; exact Heq].
    + rewrite IH. split.
      * intros H [Hd | Hin]; [exact (Hne Hd) | exact (H Hin)].
      * intros H Hin. apply H. right. exact Hin.
Qed.

Lemma replace_metric_paths (path : string) (m' : MetricsData)
    (rows : list MetricsData) :
  m_path m' = path ->
  map m_path (replace_metric path m' rows) = map m_path rows.
Proof.
  intros Hp. induction rows as [| m r IH]; simpl; [reflexivity |].
  destruct (String.eqb_spec (m_path m) path) as [Heq | Hne]; simpl.
  - rewrite Hp, Heq. reflexivity.
  - rewrite IH. reflexivity.
Qed.

Lemma record_metrics_paths (c : ConfigModel) (path : string) (count : Z)
    (override : bool) (db : Database) :
  unique_paths db -> unique_paths (record_metrics c path count override db).
Proof.
  unfold unique_paths, record_metrics. intros Hu.
  destruct (allowed c path); simpl; [| exact Hu].
  destruct (metric_get path db) as [m |] eqn:Hget; simpl.
  - rewrite replace_metric_paths; [exact Hu |].
    rewrite bump_path. exact (metric_get_path _ _ _ Hget).
  - rewrite map_app. simpl. rewrite bump_path. simpl.
    apply metric_get_none in Hget.
    apply NoDup_app; [exact Hu | constructor; [intros [] | constructor] |].
    intros x Hx [Hx' | []]. subst x. exact (Hget Hx).
Qed.

Lemma roll_paths (key : string) (marker : MetricsMetaData -> string)
    (store : string -> MetricsMetaData -> MetricsMetaData)
    (zero : MetricsData -> MetricsData)
    (st : MetricsMetaData * list MetricsData) :
  (forall m, m_path (zero m) = m_path m) ->
  map m_path (snd (roll key marker store zero st)) = map m_path (snd st).
Proof.
  intros Hz. unfold roll.
  destruct (negb (String.eqb key (marker (fst st)))); simpl; [| reflexivity].
  rewrite map_map. apply map_ext. exact Hz.
Qed.

(** X10: No sequence of [record_metrics] and [_metrics_refresh] calls gives two
    rows one path; a refresh neither adds nor drops a path. *)
Theorem metrics_keep_paths_unique (c : ConfigModel) (ops : list metrics_op)
    (db : Database) :
  unique_paths db ->
  unique_paths (run_ops c ops db)
  /\ forall now, map m_path (metrics (run_op c db (Metrics_refresh now)))
                 = map m_path (metrics db).
Proof.
  intros Hu.
  assert (Hrefresh : forall db' now,
             map m_path (metrics (run_op c db' (Metrics_refresh now)))
             = map m_path (metrics db')).
  { intros db' now. simpl. unfold _metrics_refresh.
    destruct (metrics_meta db') as [meta |]; [| reflexivity]. simpl.
    repeat (rewrite roll_paths; [| intros m; reflexivity]). reflexivity. }
  split; [| intros now; apply Hrefresh].
  revert db Hu. unfold run_ops.
  induction ops as [| op ops IH]; intros db Hu; simpl; [exact Hu |].
  apply IH. destruct op as [path count override | now].
  - apply record_metrics_paths. exact Hu.
  - unfold unique_paths. rewrite Hrefresh. exact Hu.
Qed.

Lemma metrics_keep_paths_unique_witness :
  unique_paths
    (run_ops sample_config
       [Record_metrics "/" 2 false; Record_metrics "/query" 1 false;
        Metrics_refresh {| dt_year := 2025; dt_month := 1; dt_day := 1;
                           dt_week := 1 |};
        Record_metrics "/query" 1 true]
       (sample_db false)).
Proof.
  apply (metrics_keep_paths_unique sample_config).
  unfold unique_paths. simpl. constructor; [intros [] | constructor].
Defined.

Lemma replace_metric_other (path q : string) (m' : MetricsData)
    (rows : list MetricsData) :
  q <> path -> m_path m' = path ->
  find (fun m => String.eqb (m_path m) q) (replace_metric path m' rows)
  = find (fun m => String.eqb (m_path m) q) rows.
Proof.
  intros Hne Hp. induction rows as [| m r IH]; simpl; [reflexivity |].
  destruct (String.eqb_spec (m_path m) path) as [Hi | Hi]; simpl.
  - destruct (String.eqb_spec (m_path m') q) as [Hj | Hj];
      [exfalso; apply Hne; rewrite <- Hj, Hp; reflexivity |].
    destruct (String.eqb_spec (m_path m) q) as [Hj' | Hj'];
      [exfalso; apply Hne; rewrite <- Hj', Hi; reflexivity | reflexivity].
  - rewrite IH. reflexivity.
Qed.

Lemma find_app_metric_other (q : string) (m' : MetricsData)
    (rows : list MetricsData) :
  m_path m' <> q ->
  find (fun m => String.eqb (m_path m) q) (rows ++ [m'])
  = find (fun m => String.eqb (m_path m) q) rows.
Proof.
  intros Hne. induction rows as [| m r IH]; simpl.
  - destruct (String.eqb_spec (m_path m') q); [contradiction | reflexivity].
  - rewrite IH. reflexivity.
Qed.

(** X11: [record_metrics] on one path leaves the counters of every other path,
    the period markers, the devices and the [main] row as they were. *)
Theorem record_metrics_frame (c : ConfigModel) (path q : string) (count : Z)
    (override : bool) (db : Database) :
  q <> path ->
  metric_get q (record_metrics c path count override db) = metric_get q db
  /\ metrics_meta (record_metrics c path count override db) = metrics_meta db
  /\ device_status (record_metrics c path count override db) = device_status db
  /\ main (record_metrics c path count override db) = main db.
Proof.
  intros Hne. unfold record_metrics.
  destruct (allowed c path); simpl; [| repeat split].
  destruct (metric_get path db) as [m |] eqn:Hget; unfold metric_get; simpl;
    repeat split.
  - apply replace_metric_other; [exact Hne |].
    rewrite bump_path. exact (metric_get_path _ _ _ Hget).
  - apply find_app_metric_other. rewrite bump_path. simpl.
    intros H. apply Hne. symmetry. exact H.
Qed.

Lemma record_metrics_frame_witness :
  metric_get "/" (record_metrics sample_config "/query" 4 false (sample_db false))
  = metric_get "/" (sample_db false).
Proof.
  exact (proj1 (record_metrics_frame sample_config "/query" "/" 4 false
                  (sample_db false) ltac:(discriminate))).
Defined.

Lemma replace_metric_twice (path : string) (m1 m2 : MetricsData)
    (rows : list MetricsData) :
  m_path m1 = path ->
  replace_metric path m2 (replace_metric path m1 rows)
  = replace_metric path m2 rows.
Proof.
  intros Hp. induction rows as [| m r IH]; simpl; [reflexivity |].
  destruct (String.eqb_spec (m_path m) path) as [Heq | Hne]; simpl.
  - rewrite Hp, String.eqb_refl. reflexivity.
  - destruct (String.eqb_spec (m_path m) path); [contradiction |].
    rewrite IH. reflexivity.
Qed.

Lemma replace_metric_app_new (path : string) (m1 m2 : MetricsData)
    (rows : list MetricsData) :
  m_path m1 = path ->
  find (fun m => String.eqb (m_path m) path) rows = None ->
  replace_metric path m2 (rows ++ [m1]) = rows ++ [m2].
Proof.
  intros Hp. induction rows as [| m r IH]; simpl; intros Hnone.
  - rewrite Hp, String.eqb_refl. reflexivity.
  - destruct (String.eqb (m_path m) path); [discriminate |].
    rewrite IH; [reflexivity | exact Hnone].
Qed.

(** Two calls on one path compose to one: the second call's row is the
    bump of the first call's row. *)
Lemma record_metrics_twice (c : ConfigModel) (path : string) (a b : Z)
    (o1 o2 : bool) (db : Database) :
  allowed c path = true ->
  record_metrics c path b o2 (record_metrics c path a o1 db)
  = set_metrics
      (match metric_get path db with
       | Some m => replace_metric path (bump o2 b (bump o1 a m)) (metrics db)
       | None => metrics db ++ [bump o2 b (bump o1 a (new_metric path))]
       end) db.
Proof.
  intros Hal.
  pose proof (record_metrics_allowed c path a o1 db Hal) as Hget1.
  unfold record_metrics at 1. rewrite Hal, Hget1. simpl.
  unfold record_metrics. rewrite Hal. simpl.
  destruct (metric_get path db) as [m |] eqn:Hget; unfold set_metrics; simpl.
  - rewrite replace_metric_twice; [reflexivity |].
    rewrite bump_path. exact (metric_get_path _ _ _ Hget).
  - rewrite (replace_metric_app_new path); [reflexivity | | exact Hget].
    rewrite bump_path. reflexivity.
Qed.

(** X12: Counts add up, and an override forgets what was recorded before:
    recording [a] and then [b] leaves the store that recording [a + b]
    leaves, and an override after any call leaves the store that the
    override alone leaves. *)
Theorem record_metrics_compose (c : ConfigModel) (path : string) (a b : Z)
    (o : bool) (db : Database) :
  record_metrics c path b false (record_metrics c path a false db)
  = record_metrics c path (a + b) false db
  /\ record_metrics c path b true (record_metrics c path a o db)
     = record_metrics c path b true db.
Proof.
  destruct (allowed c path) eqn:Hal.
  - rewrite !(record_metrics_twice c path _ _ _ _ db Hal).
    unfold record_metrics. rewrite Hal. cbn [negb].
    assert (Hadd : forall m, bump false b (bump false a m) = bump false (a + b) m).
    { intros m. unfold bump. simpl. f_equal; lia. }
    assert (Hover : forall m, bump true b (bump o a m) = bump true b m).
    { intros m. destruct o; reflexivity. }
    destruct (metric_get path db); rewrite Hadd, Hover; split; reflexivity.
  - unfold record_metrics. rewrite Hal. simpl. split; reflexivity.
Qed.





(** ** Plugin data *)

Lemma plugin_find_id (id : string) (table : list PluginData) (p : PluginData) :
  plugin_find id table = Some p -> plugin_id p = id.
Proof.
  unfold plugin_find. intros H. apply find_some in H.
  apply String.eqb_eq. exact (proj2 H).
Qed.

Lemma plugin_find_app_new (id : string) (p' : PluginData)
    (table : list PluginData) :
  plugin_id p' = id ->
  plugin_find id table = None ->
  plugin_find id (table ++ [p']) = Some p'.
Proof.
  unfold plugin_find. intros Hid.
  induction table as [| p r IH]; simpl; intros Hnone.
  - rewrite Hid, String.eqb_refl. reflexivity.
  - destruct (String.eqb (plugin_id p) id); [discriminate | apply IH; exact Hnone].
Qed.

Lemma plugin_find_replace (id : string) (p' : PluginData)
    (table : list PluginData) :
  plugin_id p' = id ->
  plugin_find id table <> None ->
  plugin_find id (replace_plugin id p' table) = Some p'.
Proof.
  unfold plugin_find. intros Hid.
  induction table as [| p r IH]; simpl; intros Hfound.
  - contradiction.
  - destruct (String.eqb (plugin_id p) id) eqn:Hp; simpl.
    + rewrite Hid, String.eqb_refl. reflexivity.
    + rewrite Hp. apply IH. exact Hfound.
Qed.

Lemma plugin_find_set (id : string) (data : Dict.t value)
    (table : list PluginData) :
  plugin_find id (set_plugin_data id data table)
  = Some {| plugin_id := id; plugin_data := data |}.
Proof.
  unfold set_plugin_data.
  destruct (plugin_find id table) as [p |] eqn:Hfind.
  - rewrite (plugin_find_id _ _ _ Hfind).
    apply plugin_find_replace; [reflexivity | rewrite Hfind; discriminate].
  - apply plugin_find_app_new; [reflexivity | exact Hfind].
Qed.

Lemma replace_plugin_twice (id : string) (p1 p2 : PluginData)
    (table : list PluginData) :
  plugin_id p1 = id ->
  replace_plugin id p2 (replace_plugin id p1 table) = replace_plugin id p2 table.
Proof.
  intros Hid. induction table as [| p r IH]; simpl; [reflexivity |].
  destruct (String.eqb_spec (plugin_id p) id) as [Heq | Hne]; simpl.
  - rewrite Hid, String.eqb_refl. reflexivity.
  - destruct (String.eqb_spec (plugin_id p) id); [contradiction |].
    rewrite IH. reflexivity.
Qed.

Lemma replace_plugin_app_new (id : string) (p1 p2 : PluginData)
    (table : list PluginData) :
  plugin_id p1 = id ->
  plugin_find id table = None ->
  replace_plugin id p2 (table ++ [p1]) = table ++ [p2].
Proof.
  unfold plugin_find. intros Hid.
  induction table as [| p r IH]; simpl; intros Hnone.
  - rewrite Hid, String.eqb_refl. reflexivity.
  - destruct (String.eqb (plugin_id p) id); [discriminate |].
    rewrite IH; [reflexivity | exact Hnone].
Qed.

(** X14: What [set_plugin_data] stores is what [get_plugin_data] returns, the
    read leaving the table as it is; and a second write replaces the blob
    whole: the table is the one the second write alone would leave. *)
Theorem plugin_data_round_trip (id : string) (data data' : Dict.t value)
    (table : list PluginData) :
  get_plugin_data id (set_plugin_data id data table)
  = (data, set_plugin_data id data table)
  /\ set_plugin_data id data' (set_plugin_data id data table)
     = set_plugin_data id data' table.
Proof.
  split.
  - unfold get_plugin_data. rewrite plugin_find_set. reflexivity.
  - unfold set_plugin_data at 1. rewrite plugin_find_set.
    unfold set_plugin_data.
    destruct (plugin_find id table) as [p |] eqn:Hfind; simpl.
    + rewrite (plugin_find_id _ _ _ Hfind).
      apply replace_plugin_twice. reflexivity.
    + apply replace_plugin_app_new; [reflexivity | exact Hfind].
Qed.

(** X15: Reading a plugin that has no row returns the empty mapping and adds a
    row holding it; reading a plugin that has a row changes nothing.  So a
    second read returns what the first returned and leaves the table the
    first read left. *)
Theorem get_plugin_data_creates (id : string) (table : list PluginData) :
  (plugin_find id table = None ->
   get_plugin_data id table
   = (Dict.empty, table ++ [ {| plugin_id := id; plugin_data := Dict.empty |} ]))
  /\ (forall p, plugin_find id table = Some p ->
                get_plugin_data id table = (plugin_data p, table))
  /\ get_plugin_data id (snd (get_plugin_data id table))
     = get_plugin_data id table.
Proof.
  split; [| split].
  - intros Hnone. unfold get_plugin_data. rewrite Hnone. reflexivity.
  - intros p Hsome. unfold get_plugin_data. rewrite Hsome. reflexivity.
  - unfold get_plugin_data at 2 3.
    destruct (plugin_find id table) as [p |] eqn:Hfind; simpl.
    + unfold get_plugin_data. rewrite Hfind. reflexivity.
    + unfold get_plugin_data.
      rewrite (plugin_find_app_new id
                 {| plugin_id := id; plugin_data := Dict.empty |} table
                 eq_refl Hfind).
      reflexivity.
Qed.

Lemma plugin_find_replace_other (id j : string) (p' : PluginData)
    (table : list PluginData) :
  j <> id -> plugin_id p' = id ->
  plugin_find j (replace_plugin id p' table) = plugin_find j table.
Proof.
  unfold plugin_find. intros Hne Hid.
  induction table as [| p r IH]; simpl; [reflexivity |].
  destruct (String.eqb_spec (plugin_id p) id) as [Hi | Hi]; simpl.
  - destruct (String.eqb_spec (plugin_id p') j) as [Hj | Hj];
      [exfalso; apply Hne; rewrite <- Hj, Hid; reflexivity |].
    destruct (String.eqb_spec (plugin_id p) j) as [Hj' | Hj'];
      [exfalso; apply Hne; rewrite <- Hj', Hi; reflexivity | reflexivity].
  - rewrite IH. reflexivity.
Qed.

Lemma plugin_find_app_other (j : string) (p' : PluginData)
    (table : list PluginData) :
  plugin_id p' <> j ->
  plugin_find j (table ++ [p']) = plugin_find j table.
Proof.
  unfold plugin_find. intros Hne.
  induction table as [| p r IH]; simpl.
  - destruct (String.eqb_spec (plugin_id p') j); [contradiction | reflexivity].
  - rewrite IH. reflexivity.
Qed.

(** X16: Reading or writing one plugin's data leaves every other plugin's row
    as it was. *)
Theorem plugin_data_frame (id j : string) (data : Dict.t value)
    (table : list PluginData) :
  j <> id ->
  plugin_find j (set_plugin_data id data table) = plugin_find j table
  /\ plugin_find j (snd (get_plugin_data id table)) = plugin_find j table.
Proof.
  intros Hne. split.
  - unfold set_plugin_data.
    destruct (plugin_find id table) as [p |] eqn:Hfind.
    + apply plugin_find_replace_other; [exact Hne |].
      exact (plugin_find_id _ _ _ Hfind).
    + apply plugin_find_app_other. simpl. intros H. apply Hne. symmetry. exact H.
  - unfold get_plugin_data.
    destruct (plugin_find id table) as [p |]; simpl; [reflexivity |].
    apply plugin_find_app_other. simpl. intros H. apply Hne. symmetry. exact H.
Qed.

Lemma plugin_data_frame_witness :
  let table := set_plugin_data "weather" [("city", VStr "Oslo")] [] in
  plugin_find "weather" (set_plugin_data "music" [("track", VInt 3)] table)
  = plugin_find "weather" table
  /\ plugin_find "weather" (snd (get_plugin_data "music" table))
     = plugin_find "weather" table.
Proof.
  intros table.
  exact (plugin_data_frame "music" "weather" [("track", VInt 3)] table
           ltac:(discriminate)).
Defined.

(** ** TTL file cache: frames, failures, key clashes and the sweep *)

(** Comparison of binary64 values is asymmetric. *)
Lemma SFcompare_lt_gt (x y : spec_float) :
  SFcompare x y = Some Lt -> SFcompare y x = Some Gt.
Proof.
  assert (Hpos : forall p q,
             Pos.compare_cont Eq q p = CompOpp (Pos.compare_cont Eq p q))
    by (intros p q; rewrite Pos.compare_cont_antisym; reflexivity).
  destruct x as [sx | sx | | sx mx ex], y as [sy | sy | | sy my ey]; simpl;
    try discriminate;
    try (destruct sx; try destruct sy; simpl; intros H;
         try discriminate H; reflexivity).
  destruct sx, sy; simpl; intros H; try discriminate H; try reflexivity;
    rewrite (Z.compare_antisym ex ey), (Hpos mx my);
    destruct (ex ?= ey)%Z; simpl in *; try discriminate H; try reflexivity;
    destruct (Pos.compare_cont Eq mx my); simpl in *;
    try discriminate H; reflexivity.
Qed.

Lemma ltb_asym (x y : float) :
  PrimFloat.ltb x y = true -> PrimFloat.ltb y x = false.
Proof.
  rewrite !ltb_spec. unfold SFltb.
  destruct (SFcompare (Prim2SF x) (Prim2SF y)) as [[| |] |] eqn:Hc;
    try discriminate.
  intros _. rewrite (SFcompare_lt_gt _ _ Hc). reflexivity.
Qed.

Lemma get_in_keys {V : Type} (k : string) (d : Dict.t V) :
  In k (Dict.keys d) <-> exists v, Dict.get k d = Some v.
Proof.
  induction d as [| [k' v'] r IH]; simpl.
  - split; [intros [] | intros [v H]; discriminate H].
  - destruct (String.eqb_spec k k') as [-> | Hne].
    + split; [intros _; exists v'; reflexivity | intros _; left; reflexivity].
    + rewrite <- IH. split.
      * intros [H | H]; [exfalso; apply Hne; symmetry; exact H | exact H].
      * intros H. right. exact H.
Qed.

Lemma get_in {V : Type} (k : string) (v : V) (d : Dict.t V) :
  Dict.get k d = Some v -> In (k, v) d.
Proof.
  induction d as [| [k' v'] r IH]; simpl; [discriminate |].
  destruct (String.eqb_spec k k') as [-> | Hne].
  - intros H. injection H as <-. left. reflexivity.
  - intros H. right. apply IH. exact H.
Qed.

Lemma dict_pop_length {V : Type} (k : string) (d : Dict.t V) :
  In k (Dict.keys d) -> S (List.length (dict_pop k d)) = List.length d.
Proof.
  induction d as [| [k' v'] r IH]; simpl; [intros [] |].
  destruct (String.eqb_spec k k') as [-> | Hne]; [reflexivity |].
  intros [H | H]; [exfalso; apply Hne; symmetry; exact H |].
  simpl. rewrite IH; [reflexivity | exact H].
Qed.

Lemma dict_pop_middle {V : Type} (k : string) (v : V) (pre post : Dict.t V) :
  ~ In k (Dict.keys pre) ->
  dict_pop k (pre ++ (k, v) :: post) = pre ++ post
  /\ Dict.get k (pre ++ (k, v) :: post) = Some v.
Proof.
  induction pre as [| [k' v'] r IH]; simpl; intros Hnot.
  - rewrite String.eqb_refl. split; reflexivity.
  - destruct (String.eqb_spec k k') as [-> | Hne].
    + exfalso. apply Hnot. left. reflexivity.
    + destruct IH as [IH1 IH2]; [intros H; apply Hnot; right; exact H |].
      rewrite IH1, IH2. split; reflexivity.
Qed.

Lemma get_app_left {V : Type} (k : string) (d e : Dict.t V) :
  In k (Dict.keys d) -> Dict.get k (d ++ e) = Dict.get k d.
Proof.
  induction d as [| [k' v'] r IH]; simpl; [intros [] |].
  destruct (String.eqb_spec k k') as [-> | Hne]; [reflexivity |].
  intros [H | H]; [exfalso; apply Hne; symmetry; exact H | apply IH; exact H].
Qed.

(** The test the sweep makes on a name. *)
Lemma clean_loop_changed (c : ConfigModel) (now : float) (names : list string)
    (size : nat) (cache : Dict.t (float * bytes)) (log : list string) :
  List.length cache <> size ->
  clean_loop c now names size cache log
  = SweepRuntimeError {| _cache := cache; opened := log |}.
Proof.
  intros Hne. apply Nat.eqb_neq in Hne.
  destruct names; simpl; rewrite Hne; reflexivity.
Qed.

Lemma clean_loop_keep (c : ConfigModel) (now : float) (names : list string)
    (cache : Dict.t (float * bytes)) (log : list string) :
  (forall n, In n names ->
             exists t0 b, Dict.get n cache = Some (t0, b)
                          /\ expired c now t0 = false) ->
  clean_loop c now names (List.length cache) cache log
  = Swept {| _cache := cache; opened := log |}.
Proof.
  induction names as [| n names IH]; intros Hall; simpl;
    rewrite Nat.eqb_refl; simpl; [reflexivity |].
  destruct (Hall n (or_introl eq_refl)) as [t0 [b [Hget Hexp]]].
  rewrite Hget. simpl. rewrite Hexp. apply IH.
  intros n' Hin. apply Hall. right. exact Hin.
Qed.

Lemma clean_loop_evict (c : ConfigModel) (now : float) (pre post : list string)
    (k : string) (t0 : float) (b : bytes)
    (cache : Dict.t (float * bytes)) (log : list string) :
  (forall n, In n pre ->
             exists t b', Dict.get n cache = Some (t, b')
                          /\ expired c now t = false) ->
  Dict.get k cache = Some (t0, b) ->
  expired c now t0 = true ->
  clean_loop c now (pre ++ k :: post) (List.length cache) cache log
  = SweepRuntimeError {| _cache := dict_pop k cache; opened := log |}.
Proof.
  induction pre as [| n pre IH]; intros Hall Hget Hexp; simpl;
    rewrite Nat.eqb_refl; simpl.
  - rewrite Hget. simpl. rewrite Hexp.
    apply clean_loop_changed.
    assert (Hin : In k (Dict.keys cache)) by (apply get_in_keys; eauto).
    pose proof (dict_pop_length k cache Hin). lia.
  - destruct (Hall n (or_introl eq_refl)) as [t [b' [Hn Hnexp]]].
    rewrite Hn. simpl. rewrite Hnexp. apply IH; [| exact Hget | exact Hexp].
    intros n' Hin. apply Hall. right. exact Hin.
Qed.

Lemma cache_state_eta (s : CacheState) :
  {| _cache := _cache s; opened := opened s |} = s.
Proof. destruct s; reflexivity. Qed.

(** X22: [_clean_cache]: in debug mode, or when no entry is older than the TTL,
    it returns and the cache is as it was.  Otherwise it pops the first
    entry (in insertion order) that is older than the TTL and the loop then
    stops with [RuntimeError]: every later entry, expired or not, stays. *)
Theorem clean_cache_spec (c : ConfigModel) (now : float) (s : CacheState) :
  (debug c = true -> _clean_cache c now s = Swept s)
  /\ (debug c = false ->
      (forall k t0 b, In (k, (t0, b)) (_cache s) -> expired c now t0 = false) ->
      _clean_cache c now s = Swept s)
  /\ (debug c = false ->
      forall pre k t0 b post,
        _cache s = pre ++ (k, (t0, b)) :: post ->
        ~ In k (Dict.keys pre) ->
        (forall k' t b', In (k', (t, b')) pre -> expired c now t = false) ->
        expired c now t0 = true ->
        _clean_cache c now s
        = SweepRuntimeError {| _cache := pre ++ post; opened := opened s |}).
Proof.
  unfold _clean_cache. split; [| split].
  - intros ->. reflexivity.
  - intros -> Hall. rewrite clean_loop_keep; [rewrite cache_state_eta; reflexivity |].
    intros n Hin. apply get_in_keys in Hin. destruct Hin as [[t0 b] Hget].
    exists t0, b. split; [exact Hget |].
    apply (Hall n t0 b). apply get_in. exact Hget.
  - intros -> pre k t0 b post Hcache Hk Hpre Hexp.
    destruct (dict_pop_middle k (t0, b) pre post Hk) as [Hpop Hget].
    rewrite Hcache. unfold Dict.keys. rewrite map_app. simpl.
    rewrite (clean_loop_evict c now (map fst pre) (map fst post) k t0 b);
      [rewrite Hpop; reflexivity | | exact Hget | exact Hexp].
    intros n Hin.
    assert (Hin' : In n (Dict.keys pre)) by exact Hin.
    rewrite (get_app_left n pre _ Hin').
    apply get_in_keys in Hin'. destruct Hin' as [[t b'] Hn].
    exists t, b'. split; [exact Hn |].
    apply (Hpre n t b'). apply get_in. exact Hn.
Qed.

Lemma clean_cache_spec_witness :
  let s := {| _cache := [ ("f-a/x", (100%float, [x68]));
                          ("f-a/y", (10%float, [x69]));
                          ("f-a/z", (20%float, [x6a])) ];
              opened := [] |} in
  _clean_cache sample_config 130%float s
  = SweepRuntimeError
      {| _cache := [ ("f-a/x", (100%float, [x68])); ("f-a/z", (20%float, [x6a])) ];
         opened := [] |}
  /\ _clean_cache plain_config 130%float s = Swept s.
Proof.
  intros s.
  destruct (clean_cache_spec sample_config 130%float s) as [_ [_ Hevict]].
  destruct (clean_cache_spec plain_config 130%float s) as [Hdebug _].
  split.
  - apply (Hevict eq_refl [("f-a/x", (100%float, [x68]))] "f-a/y" 10%float [x69]
                  [("f-a/z", (20%float, [x6a]))] eq_refl).
    + simpl. intros [H | []]. discriminate H.
    + intros k' t b' [H | []]. injection H as _ <- _. reflexivity.
    + reflexivity.
  - apply Hdebug. reflexivity.
Defined.

Lemma clean_loop_raises (c : ConfigModel) (now : float) (names : list string)
    (cache : Dict.t (float * bytes)) (log : list string) (s' : CacheState) :
  (forall n, In n names -> In n (Dict.keys cache)) ->
  clean_loop c now names (List.length cache) cache log = SweepRuntimeError s' ->
  exists k t0 b,
    Dict.get k cache = Some (t0, b)
    /\ expired c now t0 = true
    /\ s' = {| _cache := dict_pop k cache; opened := log |}.
Proof.
  induction names as [| n names IH]; intros Hsub; simpl;
    rewrite Nat.eqb_refl; simpl; [discriminate |].
  assert (Hin : In n (Dict.keys cache)) by (apply Hsub; left; reflexivity).
  destruct (proj1 (get_in_keys n cache) Hin) as [[t0 b] Hget].
  rewrite Hget. simpl.
  destruct (expired c now t0) eqn:Hexp.
  - rewrite clean_loop_changed;
      [| pose proof (dict_pop_length n cache Hin); lia].
    intros H. injection H as <-. exists n, t0, b. repeat split; assumption.
  - apply IH. intros n' Hn'. apply Hsub. right. exact Hn'.
Qed.

(** X23: The sweep and the read agree on what is stale: an entry the sweep pops
    is one that [get_cached_file], at the same clock reading, would not
    serve from the cache; and a sweep that returns has removed nothing. *)
Theorem clean_cache_evicts_stale (c : ConfigModel) (now : float)
    (s : CacheState) :
  (forall s', _clean_cache c now s = Swept s' -> s' = s)
  /\ (forall s', _clean_cache c now s = SweepRuntimeError s' ->
                 exists k t0 b,
                   Dict.get k (_cache s) = Some (t0, b)
                   /\ is_fresh c now k s = false
                   /\ _cache s' = dict_pop k (_cache s)
                   /\ opened s' = opened s).
Proof.
  split.
  - intros s' H.
    destruct (_clean_cache c now s) as [s0 | s0] eqn:Hrun; [| discriminate].
    injection H as <-.
    unfold _clean_cache in Hrun. destruct (debug c);
      [injection Hrun as <-; reflexivity |].
    destruct (clean_loop c now (Dict.keys (_cache s))
                (List.length (_cache s)) (_cache s) (opened s)) eqn:Hloop;
      [| discriminate].
    injection Hrun as ->.
    assert (Hkeep : forall names cache log s1,
               clean_loop c now names (List.length cache) cache log = Swept s1 ->
               s1 = {| _cache := cache; opened := log |}).
    { induction names as [| n names IH]; intros cache log s1; simpl;
        rewrite Nat.eqb_refl; simpl.
      - intros H. injection H as <-. reflexivity.
      - destruct (expired c now _).
        + destruct (Nat.eq_dec (List.length (dict_pop n cache)) (List.length cache))
            as [Heq | Hne].
          * rewrite <- Heq at 1. intros H. apply IH in H.
            assert (Hsame : dict_pop n cache = cache).
            { clear -Heq. induction cache as [| [k' v'] r IHc]; simpl in *;
                [reflexivity |].
              destruct (String.eqb n k'); [lia |].
              simpl in Heq. rewrite IHc; [reflexivity | lia]. }
            rewrite Hsame in H. exact H.
          * rewrite (clean_loop_changed _ _ _ _ _ _ Hne). discriminate.
        + apply IH. }
    rewrite (Hkeep _ _ _ _ Hloop). apply cache_state_eta.
  - intros s' H. unfold _clean_cache in H.
    destruct (debug c); [discriminate |].
    apply clean_loop_raises in H; [| intros n Hn; exact Hn].
    destruct H as [k [t0 [b [Hget [Hexp ->]]]]].
    exists k, t0, b. repeat split; [exact Hget |].
    unfold is_fresh. rewrite Hget.
    destruct (PrimFloat.ltb (PrimFloat.sub now t0) (cache_age c)) eqn:Hfresh;
      [| reflexivity].
    unfold expired in Hexp. rewrite (ltb_asym _ _ Hfresh) in Hexp.
    discriminate Hexp.
Qed.

(** An entry whose age equals the TTL is stale for a read yet kept by the
    sweep: the read tests [<], the sweep [>]. *)
Example age_equal_ttl :
  let s := {| _cache := [ (cache_key "static" "index.html", (40%float, [x68])) ];
              opened := [] |} in
  _clean_cache sample_config 100%float s = Swept s
  /\ is_fresh sample_config 100%float (cache_key "static" "index.html") s = false.
Proof. split; reflexivity. Qed.

Lemma set_keys_nodup {V : Type} (k : string) (v : V) (d : Dict.t V) :
  NoDup (Dict.keys d) -> NoDup (Dict.keys (Dict.set k v d)).
Proof.
  intros Hnd. destruct (in_dec string_dec k (Dict.keys d)) as [Hin | Hnot].
  - assert (Hkeys : Dict.keys (Dict.set k v d) = Dict.keys d).
    { clear Hnd. induction d as [| [k' v'] r IH]; simpl in *; [contradiction |].
      destruct (String.eqb_spec k k') as [-> | Hne]; [reflexivity |].
      simpl. rewrite IH; [reflexivity |].
      destruct Hin as [H | H]; [exfalso; apply Hne; symmetry; exact H | exact H]. }
    rewrite Hkeys. exact Hnd.
  - rewrite (set_new _ _ _ Hnot), keys_app. simpl.
    apply NoDup_app; [exact Hnd | constructor; [intros [] | constructor] |].
    intros x Hx [Hx' | []]. subst x. exact (Hnot Hx).
Qed.

(** X17: One call of [get_cached_file], whatever it returns or raises: it opens
    no file or exactly the resolved path; it touches no cache entry but the
    one of its own key; in debug mode it leaves the cache alone; and the
    keys of the cache stay distinct. *)
Theorem get_cached_file_frame
    (safe_join : string -> string -> option string) (get_path : string -> string)
    (c : ConfigModel) (fs : filesystem) (now : float)
    (dirname filename : string) (s : CacheState) :
  let s' := state_after (get_cached_file safe_join get_path c fs now
                                         dirname filename s) in
  (opened s' = opened s
   \/ exists filepath, safe_join (get_path dirname) filename = Some filepath
                       /\ opened s' = opened s ++ [filepath])
  /\ (forall k, k <> cache_key dirname filename ->
                Dict.get k (_cache s') = Dict.get k (_cache s))
  /\ (debug c = true -> _cache s' = _cache s)
  /\ (NoDup (Dict.keys (_cache s)) -> NoDup (Dict.keys (_cache s'))).
Proof.
  unfold get_cached_file.
  destruct (safe_join (get_path dirname) filename) as [[| a p] |] eqn:Hjoin;
    simpl; try (repeat split; auto; fail).
  assert (Hread : forall (store : bool),
             let s' := state_after
                         (open_read fs (String a p) s
                            (fun ret s0 =>
                               Return (Some ret)
                                 {| _cache :=
                                      if store
                                      then Dict.set (cache_key dirname filename)
                                                    (now, ret) (_cache s0)
                                      else _cache s0;
                                    opened := opened s0 |})) in
             opened s' = opened s ++ [String a p]
             /\ (forall k, k <> cache_key dirname filename ->
                           Dict.get k (_cache s') = Dict.get k (_cache s))
             /\ (store = false -> _cache s' = _cache s)
             /\ (NoDup (Dict.keys (_cache s)) -> NoDup (Dict.keys (_cache s')))).
  { intros store. unfold open_read.
    destruct (fs (String a p)) as [b | e]; simpl.
    - destruct store; simpl; repeat split; auto; try discriminate;
        try (intros k Hk; apply get_set_other; exact Hk);
        apply set_keys_nodup.
    - destruct (isinstance e handled); simpl; repeat split; auto. }
  destruct (debug c) eqn:Hdebug.
  - destruct (Hread false) as [H1 [H2 [H3 H4]]].
    assert (Hsame : open_read fs (String a p) s (fun b s' => Return (Some b) s')
                    = open_read fs (String a p) s
                        (fun ret s0 =>
                           Return (Some ret)
                             {| _cache := _cache s0; opened := opened s0 |})).
    { unfold open_read. destruct (fs (String a p)); reflexivity. }
    rewrite Hsame.
    split; [right; exists (String a p); split; [reflexivity | exact H1] |].
    split; [exact H2 |]. split; [intros _; apply H3; reflexivity | exact H4].
  - destruct (Hread true) as [H1 [H2 [_ H4]]].
    destruct (Dict.get (cache_key dirname filename) (_cache s)) as [[t0 b] |].
    + destruct (PrimFloat.ltb (PrimFloat.sub now t0) (cache_age c)).
      * simpl. repeat split; auto; discriminate.
      * split; [right; exists (String a p); split; [reflexivity | exact H1] |].
        split; [exact H2 |]. split; [discriminate | exact H4].
    + split; [right; exists (String a p); split; [reflexivity | exact H1] |].
      split; [exact H2 |]. split; [discriminate | exact H4].
Qed.

Lemma get_cached_file_missing_witness :
  get_cached_file sample_join sample_path sample_config (sample_disk [])
                  100%float "static" "nothing.txt"
                  {| _cache := [ (cache_key "static" "nothing.txt",
                                  (1%float, [x68])) ];
                     opened := [] |}
  = Return None
      {| _cache := [ (cache_key "static" "nothing.txt", (1%float, [x68])) ];
         opened := ["/srv/static/nothing.txt"] |}.
Proof.
  exact (get_cached_file_missing sample_join sample_path sample_config
           (sample_disk []) 100%float "static" "nothing.txt"
           "/srv/static/nothing.txt"
           {| _cache := [ (cache_key "static" "nothing.txt", (1%float, [x68])) ];
              opened := [] |}
           eq_refl ltac:(discriminate) (or_intror eq_refl) eq_refl).
Defined.

(** X19: An error of [open] other than [FileNotFoundError] is not turned into
    "not found": it leaves [get_cached_file] as it is, after the path was
    opened and with the cache map as it was. *)
Theorem get_cached_file_error_propagates
    (safe_join : string -> string -> option string) (get_path : string -> string)
    (c : ConfigModel) (fs : filesystem) (now : float)
    (dirname filename filepath : string) (s : CacheState) (e : exception) :
  safe_join (get_path dirname) filename = Some filepath ->
  filepath <> "" ->
  (debug c = true \/ is_fresh c now (cache_key dirname filename) s = false) ->
  fs filepath = OpenError e ->
  e <> FileNotFoundError ->
  get_cached_file safe_join get_path c fs now dirname filename s
  = Raise e {| _cache := _cache s; opened := opened s ++ [filepath] |}.
Proof.
  intros Hjoin Hpath Hmode Hread He. unfold get_cached_file.
  rewrite Hjoin. destruct filepath as [| a p]; [contradiction |].
  assert (Hnot : isinstance e handled = false)
    by (destruct e; try reflexivity; contradiction).
  unfold is_fresh in Hmode.
  destruct (debug c).
  - unfold open_read. rewrite Hread, Hnot. reflexivity.
  - destruct Hmode as [Hmode | Hmode]; [discriminate |].
    destruct (Dict.get (cache_key dirname filename) (_cache s)) as [[t0 b0] |];
      [rewrite Hmode |]; unfold open_read; rewrite Hread, Hnot; reflexivity.
Qed.

Lemma get_cached_file_error_propagates_witness :
  get_cached_file sample_join sample_path sample_config
                  (fun _ => OpenError PermissionError)
                  100%float "static" "index.html" empty_cache
  = Raise PermissionError
      {| _cache := []; opened := ["/srv/static/index.html"] |}.
Proof.
  exact (get_cached_file_error_propagates sample_join sample_path sample_config
           (fun _ => OpenError PermissionError) 100%float "static" "index.html"
           "/srv/static/index.html" empty_cache PermissionError
           eq_refl ltac:(discriminate) (or_intror eq_refl) eq_refl
           ltac:(discriminate)).
Defined.

Lemma append_assoc (a b d : string) :
  ((a ++ b) ++ d)%string = (a ++ (b ++ d))%string.
Proof.
  induction a as [| ch a IH]; simpl; [reflexivity | rewrite IH; reflexivity].
Qed.

(** X20: The cache key does not tell the directory from the file name: a name
    with a slash under one directory and its tail under the longer
    directory share one key.  So a fresh entry stored for the one is
    served, unread, for the other. *)
Theorem cache_key_clash
    (safe_join : string -> string -> option string) (get_path : string -> string)
    (c : ConfigModel) (fs : filesystem) (now : float)
    (dirname head tail filepath : string) (s : CacheState)
    (t0 : float) (b : bytes) :
  debug c = false ->
  safe_join (get_path (dirname ++ "/" ++ head)%string) tail = Some filepath ->
  filepath <> "" ->
  Dict.get (cache_key dirname (head ++ "/" ++ tail)%string) (_cache s) = Some (t0, b) ->
  PrimFloat.ltb (PrimFloat.sub now t0) (cache_age c) = true ->
  cache_key (dirname ++ "/" ++ head)%string tail = cache_key dirname (head ++ "/" ++ tail)%string
  /\ get_cached_file safe_join get_path c fs now (dirname ++ "/" ++ head)%string tail s
     = Return (Some b) s.
Proof.
  intros Hdebug Hjoin Hpath Hget Hfresh.
  assert (Hkey : cache_key (dirname ++ "/" ++ head)%string tail
                 = cache_key dirname (head ++ "/" ++ tail)%string).
  { unfold cache_key. rewrite !append_assoc. reflexivity. }
  split; [exact Hkey |].
  apply (get_cached_file_hit safe_join get_path c fs now _ _ filepath s t0 b
           Hdebug Hjoin Hpath); [| exact Hfresh].
  rewrite Hkey. exact Hget.
Qed.

Lemma cache_key_clash_witness :
  exists s1,
    get_cached_file sample_join sample_path sample_config
                    (fun _ => Content [x68]) 100%float "a" "b/c" empty_cache
    = Return (Some [x68]) s1
    /\ get_cached_file sample_join sample_path sample_config
                       (fun _ => Content [x69]) 101%float "a/b" "c" s1
       = Return (Some [x68]) s1.
Proof.
  eexists. split; [reflexivity |].
  exact (proj2 (cache_key_clash sample_join sample_path sample_config
                  (fun _ => Content [x69]) 101%float "a" "b" "c" "/srv/a/b/c"
                  {| _cache := [ (cache_key "a" "b/c", (100%float, [x68])) ];
                     opened := ["/srv/a/b/c"] |}
                  100%float [x68] eq_refl eq_refl ltac:(discriminate)
                  eq_refl eq_refl)).
Defined.

(** X21: Content that is not UTF-8 is "not found" for [get_cached_text], yet
    the read stores it: within the TTL [get_cached_file] serves those bytes
    from the cache, and [get_cached_text] answers "not found" again, both
    without opening the file. *)
Theorem get_cached_text_undecodable_cached
    (safe_join : string -> string -> option string) (get_path : string -> string)
    (c : ConfigModel) (fs fs' : filesystem) (now now' : float)
    (dirname filename filepath : string) (s : CacheState) (raw : bytes) :
  debug c = false ->
  safe_join (get_path dirname) filename = Some filepath ->
  filepath <> "" ->
  is_fresh c now (cache_key dirname filename) s = false ->
  fs filepath = Content raw ->
  decode raw = None ->
  PrimFloat.ltb (PrimFloat.sub now' now) (cache_age c) = true ->
  exists s1,
    get_cached_text safe_join get_path c fs now dirname filename s
    = Return None s1
    /\ opened s1 = opened s ++ [filepath]
    /\ get_cached_file safe_join get_path c fs' now' dirname filename s1
       = Return (Some raw) s1
    /\ get_cached_text safe_join get_path c fs' now' dirname filename s1
       = Return None s1.
Proof.
  intros Hdebug Hjoin Hpath Hstale Hread Hdec Hin.
  pose proof (get_cached_file_miss safe_join get_path c fs now _ _ _ s raw
                Hdebug Hjoin Hpath Hstale Hread) as Hmiss.
  eexists. split.
  { unfold get_cached_text. rewrite Hmiss, Hdec. reflexivity. }
  split; [reflexivity |].
  assert (Hhit : get_cached_file safe_join get_path c fs' now' dirname filename
                   {| _cache := Dict.set (cache_key dirname filename) (now, raw)
                                         (_cache s);
                      opened := opened s ++ [filepath] |}
                 = Return (Some raw)
                     {| _cache := Dict.set (cache_key dirname filename) (now, raw)
                                           (_cache s);
                        opened := opened s ++ [filepath] |}).
  { apply (get_cached_file_hit safe_join get_path c fs' now' _ _ filepath _
             now raw Hdebug Hjoin Hpath); [| exact Hin].
    simpl. apply get_set_same. }
  split; [exact Hhit |].
  unfold get_cached_text. rewrite Hhit, Hdec. reflexivity.
Qed.

Lemma get_cached_text_undecodable_cached_witness :
  exists s1,
    get_cached_text sample_join sample_path sample_config (sample_disk [])
                    100%float "static" "logo.bin" empty_cache = Return None s1
    /\ get_cached_file sample_join sample_path sample_config
                       (fun _ => OpenError FileNotFoundError)
                       120%float "static" "logo.bin" s1
       = Return (Some [xff; xfe]) s1.
Proof.
  destruct (get_cached_text_undecodable_cached sample_join sample_path
              sample_config (sample_disk []) (fun _ => OpenError FileNotFoundError)
              100%float 120%float "static" "logo.bin" "/srv/static/logo.bin"
              empty_cache [xff; xfe]
              eq_refl eq_refl ltac:(discriminate) eq_refl eq_refl eq_refl eq_refl)
    as [s1 [Htext [_ [Hfile _]]]].
  exists s1. split; assumption.
Defined.

(** ** Status store: the current status and the privacy switch *)

Lemma get_status_negative_id_witness :
  get_status sample_config (sample_db false) (-1) = (true, asleep)
  /\ get_status sample_config (sample_db false) (-2) = (true, awake).
Proof.
  split.
  - destruct (get_status_negative_id sample_config (sample_db false) (-1))
      as [item [Hnth Hget]]; [simpl; lia |].
    simpl in Hnth. injection Hnth as <-. exact Hget.
  - destruct (get_status_negative_id sample_config (sample_db false) (-2))
      as [item [Hnth Hget]]; [simpl; lia |].
    simpl in Hnth. injection Hnth as <-. exact Hget.
Defined.

Lemma list_index_some {A : Type} (l : list A) (i : Z) :
  (exists a, list_index l i = Some a)
  <-> (- Z.of_nat (List.length l) <= i < Z.of_nat (List.length l))%Z.
Proof.
  split.
  - intros [a Ha].
    destruct (Z_lt_ge_dec i (- Z.of_nat (List.length l))) as [Hlo | Hlo];
      [rewrite list_index_out_of_range in Ha by (left; exact Hlo); discriminate |].
    destruct (Z_lt_ge_dec i (Z.of_nat (List.length l))) as [Hhi | Hhi];
      [lia |].
    rewrite list_index_out_of_range in Ha by (right; lia). discriminate.
  - intros Hrange. destruct (Z_lt_ge_dec i 0) as [Hneg | Hpos].
    + rewrite list_index_negative by lia.
      destruct (nth_error l (Z.to_nat (i + Z.of_nat (List.length l)))) as [a |] eqn:Hn;
        [exists a; reflexivity | apply nth_error_None in Hn; lia].
    + rewrite list_index_in_range by lia.
      destruct (nth_error l (Z.to_nat i)) as [a |] eqn:Hn;
        [exists a; reflexivity | apply nth_error_None in Hn; lia].
Qed.

(** X25: After the status id is set to [v], the current status is a catalog
    entry exactly when [-n <= v < n] for a catalog of [n] entries;
    otherwise it is the "Unknown" record, whose id is [v], and
    [status_dict] carries the same flag and that record's attributes.  The
    setter touches neither the devices nor the private-mode flag. *)
Theorem status_after_set (c : ConfigModel) (v : Z) (stamp : float)
    (db : Database) :
  let db' := set_status_id v stamp db in
  let n := Z.of_nat (List.length (status_list c)) in
  (fst (status c db') = true <-> (- n <= v < n)%Z)
  /\ (fst (status c db') = false ->
      snd (status c db')
      = {| item_id := v; item_name := "Unknown"; item_desc := unknown_desc;
           item_color := "error" |}
      /\ status_dict c db'
         = (false, [ ("id", VInt v); ("name", VStr "Unknown");
                     ("desc", VStr unknown_desc); ("color", VStr "error") ]))
  /\ device_status db' = device_status db
  /\ private_mode db' = private_mode db.
Proof.
  intros db' n. unfold status_dict, status, get_status.
  change (status_id db') with v.
  pose proof (list_index_some (status_list c) v) as Hsome. fold n in Hsome.
  destruct (list_index (status_list c) v) as [item |] eqn:Hidx; simpl;
    (split; [| split; [| split; reflexivity]]).
  - split; [intros _; apply Hsome; exists item; reflexivity |].
    intros _. reflexivity.
  - discriminate.
  - split; [discriminate |].
    intros Hrange. apply Hsome in Hrange. destruct Hrange as [a Ha].
    discriminate Ha.
  - intros _. split; reflexivity.
Qed.

Lemma device_list_ext (c : ConfigModel) (db1 db2 : Database) :
  private_mode db1 = private_mode db2 ->
  device_status db1 = device_status db2 ->
  device_list c db1 = device_list c db2.
Proof.
  intros Hp Hd. unfold device_list, _raw_device_list_dict, _raw_device_list.
  rewrite Hp, Hd. reflexivity.
Qed.

(** X26: Private mode hides the view and nothing else: switching it on empties
    [device_list] while [device_get] still returns every device, and
    switching it off again shows the view as it was; the device table is
    never changed by the switch. *)
Theorem private_mode_switch (c : ConfigModel) (stamp stamp' : float)
    (db : Database) (i : string) :
  private_mode db = false ->
  device_list c (set_private_mode true stamp db) = Dict.empty
  /\ device_get i (set_private_mode true stamp db) = device_get i db
  /\ device_list c (set_private_mode false stamp'
                      (set_private_mode true stamp db))
     = device_list c db
  /\ device_status (set_private_mode true stamp db) = device_status db.
Proof.
  intros Hp. repeat split.
  apply device_list_ext; [symmetry; exact Hp | reflexivity].
Qed.

Lemma private_mode_switch_witness :
  device_list sample_config (set_private_mode true 7%float (sample_db false))
  = Dict.empty
  /\ device_get "laptop" (set_private_mode true 7%float (sample_db false))
     = Some laptop
  /\ device_list sample_config
       (set_private_mode false 8%float
          (set_private_mode true 7%float (sample_db false)))
     = device_list sample_config (sample_db false).
Proof.
  destruct (private_mode_switch sample_config 7%float 8%float (sample_db false)
              "laptop" eq_refl) as [H1 [H2 [H3 _]]].
  split; [exact H1 |]. split; [rewrite H2; reflexivity | exact H3].
Defined.

Lemma get_plugin_data_creates_witness :
  get_plugin_data "music" []
  = ([], [ {| plugin_id := "music"; plugin_data := [] |} ])
  /\ get_plugin_data "music"
       [ {| plugin_id := "music"; plugin_data := [("track", VInt 3)] |} ]
     = ([("track", VInt 3)],
        [ {| plugin_id := "music"; plugin_data := [("track", VInt 3)] |} ]).
Proof.
  split.
  - apply (proj1 (get_plugin_data_creates "music" [])). reflexivity.
  - apply (proj1 (proj2 (get_plugin_data_creates "music"
                           [ {| plugin_id := "music";
                                plugin_data := [("track", VInt 3)] |} ]))
             {| plugin_id := "music"; plugin_data := [("track", VInt 3)] |}).
    reflexivity.
Defined.

Lemma clean_cache_evicts_stale_witness :
  let s := {| _cache := [ ("f-a/x", (100%float, [x68]));
                          ("f-a/y", (10%float, [x69])) ];
              opened := [] |} in
  exists k t0 b,
    Dict.get k (_cache s) = Some (t0, b)
    /\ is_fresh sample_config 130%float k s = false
    /\ dict_pop k (_cache s) = [ ("f-a/x", (100%float, [x68])) ].
Proof.
  intros s.
  destruct (proj2 (clean_cache_evicts_stale sample_config 130%float s)
              {| _cache := [ ("f-a/x", (100%float, [x68])) ]; opened := [] |}
              eq_refl)
    as [k [t0 [b [Hget [Hfresh [Hpop _]]]]]].
  exists k, t0, b. split; [exact Hget |]. split; [exact Hfresh |].
  symmetry. exact Hpop.
Defined.
